(** * Portfolio-Analytics: the time-series analytics of [frontend.py]

    A shallow embedding of [get_stock_data_for_period] and
    [calculate_stock_stats] together with the part of pandas / numpy they
    rely on, and the properties of the specification that concern them.

    Numbers.  The source computes on IEEE binary64 values.  Prices read from
    the snapshot are modelled as rationals ([Q]): finite values, exact
    arithmetic, a single zero.  Values *computed* by the source live in
    [npfloat], which adds the two infinities and NaN that numpy produces
    instead of raising (division by zero, standard deviation of fewer than
    two values).  Rounding, overflow and the sign of zero are not
    modelled: a computed number stands for the binary64 value nearest to
    it.  The general statements below are about which observations a
    result is computed from, about its presence, its sign and its order,
    which rounding preserves; the worked example is stated up to
    [approx].

    Tables.  The table of the snapshot is the list of its records, as
    [pd.DataFrame(records)] receives it: built from no record it has no
    column, and the first column access of either function raises
    KeyError.

    Dates.  A timestamp is a day number ([Z], days since 1970-01-01), so
    [timedelta(days=365)] is the integer 365. *)

From Stdlib Require Import String ZArith QArith Qabs Qminmax Bool Lia Lqa.
From Stdlib Require Import List Permutation Sorted.
Import ListNotations.

Local Open Scope Z_scope.

(* ================================================================== *)
(** ** numpy floating-point values without rounding *)

Module NpFloat.

Inductive npfloat : Type :=
| Fin (q : Q)
| PInf
| NInf
| NaN.

Definition is_nan (x : npfloat) : bool :=
  match x with NaN => true | _ => false end.

Definition is_finite (x : npfloat) : bool :=
  match x with Fin _ => true | _ => false end.

(** Sign of a rational, as [comparison] with zero. *)
Definition Qsign (q : Q) : comparison := (q ?= 0)%Q.

Definition fneg (x : npfloat) : npfloat :=
  match x with
  | Fin q => Fin (- q)%Q
  | PInf => NInf
  | NInf => PInf
  | NaN => NaN
  end.

(** An infinity of the sign of [q]; [inf * 0] is NaN. *)
Definition inf_times (pos : bool) (q : Q) : npfloat :=
  match Qsign q with
  | Eq => NaN
  | Gt => if pos then PInf else NInf
  | Lt => if pos then NInf else PInf
  end.

Definition fadd (x y : npfloat) : npfloat :=
  match x, y with
  | NaN, _ | _, NaN => NaN
  | Fin a, Fin b => Fin (a + b)%Q
  | PInf, NInf | NInf, PInf => NaN
  | PInf, _ | _, PInf => PInf
  | NInf, _ | _, NInf => NInf
  end.

Definition fsub (x y : npfloat) : npfloat := fadd x (fneg y).

Definition fmul (x y : npfloat) : npfloat :=
  match x, y with
  | NaN, _ | _, NaN => NaN
  | Fin a, Fin b => Fin (a * b)%Q
  | PInf, Fin b => inf_times true b
  | NInf, Fin b => inf_times false b
  | Fin a, PInf => inf_times true a
  | Fin a, NInf => inf_times false a
  | PInf, PInf | NInf, NInf => PInf
  | PInf, NInf | NInf, PInf => NInf
  end.

(** Division never raises on numpy scalars: [x / 0] is an infinity of the
    sign of [x], and [0 / 0] is NaN. *)
Definition fdiv (x y : npfloat) : npfloat :=
  match x, y with
  | NaN, _ | _, NaN => NaN
  | Fin a, Fin b =>
      match Qsign b with
      | Eq => inf_times true a
      | _ => Fin (a / b)%Q
      end
  | Fin _, (PInf | NInf) => Fin 0
  | (PInf | NInf), (PInf | NInf) => NaN
  | PInf, Fin b => match Qsign b with Lt => NInf | _ => PInf end
  | NInf, Fin b => match Qsign b with Lt => PInf | _ => NInf end
  end.

(** Equality of values up to the representation of the rational. Like
    IEEE [==] it could be made irreflexive on NaN; here NaN is only
    required to differ from every number. *)
Definition feq (x y : npfloat) : Prop :=
  match x, y with
  | Fin a, Fin b => (a == b)%Q
  | PInf, PInf | NInf, NInf | NaN, NaN => True
  | _, _ => False
  end.

(** [x <= c] and [c <= x] for a computed value and a rational bound;
    comparisons with NaN are false. *)
Definition fle_q (x : npfloat) (c : Q) : Prop :=
  match x with
  | Fin a => (a <= c)%Q
  | NInf => True
  | PInf | NaN => False
  end.

Definition fge_q (x : npfloat) (c : Q) : Prop :=
  match x with
  | Fin a => (c <= a)%Q
  | PInf => True
  | NInf | NaN => False
  end.

(** "Approximately [c]": within the tolerance 1e-6 the specification uses
    for its floating-point comparisons. *)
Definition approx (x : npfloat) (c : Q) : Prop :=
  match x with
  | Fin a => (Qabs (a - c) <= 1 # 1000000)%Q
  | _ => False
  end.

(** [x <= y] on computed values; comparisons with NaN are false. *)
Definition fle (x y : npfloat) : Prop :=
  match x, y with
  | NaN, _ | _, NaN => False
  | Fin a, Fin b => (a <= b)%Q
  | NInf, _ | _, PInf => True
  | _, _ => False
  end.

(** Truth value of a numpy scalar in a Python condition: only zero is
    false (NaN and the infinities are true). *)
Definition truthy (x : npfloat) : bool :=
  match x with
  | Fin q => negb (Qeq_bool q 0)
  | _ => true
  end.

End NpFloat.
Export NpFloat.

(* ================================================================== *)
(** ** Calendar dates as day numbers *)

Module Calendar.

(** Days from 1970-01-01 to the civil date [y]-[m]-[d] of the proleptic
    Gregorian calendar: what [pd.to_datetime] gives, in days. *)
Definition days_from_civil (y m d : Z) : Z :=
  let y' := if m <=? 2 then y - 1 else y in
  let era := y' / 400 in
  let yoe := y' - era * 400 in
  let mp := (m + 9) mod 12 in
  let doy := (153 * mp + 2) / 5 + d - 1 in
  let doe := yoe * 365 + yoe / 4 - yoe / 100 + doy in
  era * 146097 + doe - 719468.

(** [timedelta(days=365)] *)
Definition one_year : Z := 365.

End Calendar.
Export Calendar.

(* ================================================================== *)
(** ** Python exceptions *)

Module Py.

Inductive exn : Type :=
| IndexError
| KeyError.

(** The outcome of running a piece of Python: a value, or an exception
    that propagates to the caller. *)
Inductive py (A : Type) : Type :=
| Ok (a : A)
| Raise (e : exn).

Arguments Ok {A} a.
Arguments Raise {A} e.

Definition bind {A B : Type} (m : py A) (k : A -> py B) : py B :=
  match m with
  | Ok a => k a
  | Raise e => Raise e
  end.

(** The computation ends with a value: no exception escapes. *)
Definition succeeds {A : Type} (m : py A) : Prop :=
  exists a, m = Ok a.

End Py.
Export Py.

Notation "x <- m ;; k" := (bind m (fun x => k))
  (at level 61, m at next level, right associativity).

(* ================================================================== *)
(** ** The part of pandas the analytics use *)

Module Frame.

(** One row of the snapshot's [stock_data] table. *)
Record Row : Type := mkRow {
  Ticker : string;
  Date : Z;
  AdjClose : Q
}.

Definition DataFrame : Type := list Row.

(** [df[df["Ticker"] == ticker]] *)
Definition ticker_rows (df : DataFrame) (ticker : string) : DataFrame :=
  filter (fun r => String.eqb (Ticker r) ticker) df.

(** [df[column]] on the table [pd.DataFrame(records)]: a table built from
    no record has no column at all, and selecting one raises KeyError.
    The frames derived from a table by selection or sorting keep its
    columns, also when they have no row. *)
Definition getitem {A : Type} (df : DataFrame) (column : Row -> A)
    : py (list A) :=
  match df with
  | [] => Raise KeyError
  | _ :: _ => Ok (map column df)
  end.

(** [df.sort_values("Date")]: ascending.  This model keeps rows of equal
    date in their order; pandas' default algorithm does not promise that,
    so the model and the code are only known to agree on a series with
    unique dates, as the data model requires: there every sorting
    algorithm returns this list ([sorted_perm_unique]).  Statements that
    compare two sorted frames carry the unique-dates hypothesis. *)
Fixpoint insert_by_Date (r : Row) (l : DataFrame) : DataFrame :=
  match l with
  | [] => [r]
  | x :: tl =>
      if Date r <=? Date x then r :: l else x :: insert_by_Date r tl
  end.

Definition sort_values_Date (df : DataFrame) : DataFrame :=
  fold_right insert_by_Date [] df.

(** [s.iloc[i]]: position [i] from the start, or from the end when [i]
    is negative; IndexError out of bounds. *)
Definition iloc {A : Type} (l : list A) (i : Z) : py A :=
  let n := Z.of_nat (length l) in
  let j := if i <? 0 then n + i else i in
  if (0 <=? j) && (j <? n) then
    match nth_error l (Z.to_nat j) with
    | Some x => Ok x
    | None => Raise IndexError
    end
  else Raise IndexError.

(** [s.max()] and [s.min()] of a column of finite values; NaN on an empty
    column. *)
Definition Series_max (ps : list Q) : npfloat :=
  match ps with
  | [] => NaN
  | p :: tl => Fin (fold_left Qmax tl p)
  end.

Definition Series_min (ps : list Q) : npfloat :=
  match ps with
  | [] => NaN
  | p :: tl => Fin (fold_left Qmin tl p)
  end.

(** [s.pct_change()]: NaN in the first position, then
    [s[i] / s[i-1] - 1]. *)
Fixpoint pct_change_from (prev : Q) (ps : list Q) : list npfloat :=
  match ps with
  | [] => []
  | p :: tl =>
      fsub (fdiv (Fin p) (Fin prev)) (Fin 1) :: pct_change_from p tl
  end.

Definition pct_change (ps : list Q) : list npfloat :=
  match ps with
  | [] => []
  | p :: tl => NaN :: pct_change_from p tl
  end.

(** [s.dropna()] *)
Definition dropna (xs : list npfloat) : list npfloat :=
  filter (fun x => negb (is_nan x)) xs.

(** The finite values of a column, or [None] when one is not finite. *)
Fixpoint finite_values (xs : list npfloat) : option (list Q) :=
  match xs with
  | [] => Some []
  | Fin q :: tl =>
      match finite_values tl with
      | Some qs => Some (q :: qs)
      | None => None
      end
  | _ :: _ => None
  end.

Definition Qsum (qs : list Q) : Q := fold_right Qplus 0%Q qs.

Definition Qcount (qs : list Q) : Q := inject_Z (Z.of_nat (length qs)).

Definition mean (qs : list Q) : Q := (Qsum qs / Qcount qs)%Q.

(** Sum of squared deviations from the mean. *)
Definition sum_sq_dev (qs : list Q) : Q :=
  Qsum (map (fun q => (q - mean qs) * (q - mean qs))%Q qs).

(** Sample variance, denominator N-1 ([ddof=1], the pandas default). *)
Definition sample_var (qs : list Q) : Q :=
  (sum_sq_dev qs / (Qcount qs - 1))%Q.

End Frame.
Export Frame.

(* ================================================================== *)
(** ** The analytics of [frontend.py] *)

(** The dictionary [calculate_stock_stats] returns when it has a current
    price; a field [None] is Python's [None]. *)
Record Stats : Type := mkStats {
  current_price : npfloat;
  one_year_return : option npfloat;
  volatility : option npfloat;
  week_high : option npfloat;
  week_low : option npfloat;
  vs_52w_high : option npfloat;
  vs_52w_low : option npfloat
}.

(** [stats.get(key)] on the returned dictionary, [None] standing for the
    empty one: a missing key reads as [None]. *)
Definition stats_get (field : Stats -> option npfloat)
    (stats : option Stats) : option npfloat :=
  match stats with
  | None => None
  | Some s => field s
  end.

Definition stats_get_current_price (stats : option Stats) : option npfloat :=
  match stats with
  | None => None
  | Some s => Some (current_price s)
  end.

(** [((end_price / start_price) - 1) * 100] *)
Definition pct_of (end_price start_price : npfloat) : npfloat :=
  fmul (fsub (fdiv end_price start_price) (Fin 1)) (Fin 100).

(** The boolean mask [(Date >= period_start) & (Date <= period_end)]. *)
Definition period_mask (period_start period_end : Z) (r : Row) : bool :=
  (period_start <=? Date r) && (Date r <=? period_end).

(** [get_stock_data_for_period]: the pair [(period_data, pct_change)], each
    component [None] or a value. *)
Definition get_stock_data_for_period
    (stock_data_df : DataFrame) (ticker : string)
    (period_start period_end : Z)
    : py (option DataFrame * option npfloat) :=
  ticker_column <- getitem stock_data_df Ticker ;;
  let ticker_data := ticker_rows stock_data_df ticker in
  let period_data := filter (period_mask period_start period_end) ticker_data in
  if (length period_data =? 0)%nat then Ok (None, None)
  else
    let period_data := sort_values_Date period_data in
    pct_change <-
      (if (0 <? length period_data)%nat then
         start_price <- iloc (map AdjClose period_data) 0 ;;
         end_price <- iloc (map AdjClose period_data) (-1) ;;
         Ok (pct_of (Fin end_price) (Fin start_price))
       else Ok (Fin 0)) ;;
    Ok (Some period_data, Some pct_change).

Section Analytics.

(** [np.sqrt] on finite values: numpy's, not this repository's. The
    development only relies on the root of a non-negative number being
    non-negative. *)
Variable np_sqrt : Q -> Q.

(** [s.std()]: NaN entries are skipped; with fewer than two values left,
    or with an infinite one, the result is NaN. *)
Definition Series_std (xs : list npfloat) : npfloat :=
  match finite_values (dropna xs) with
  | None => NaN
  | Some qs =>
      if (length qs <=? 1)%nat then NaN
      else Fin (np_sqrt (sample_var qs))
  end.

(** [calculate_stock_stats]: [Ok None] is the empty dictionary [{}]. *)
Definition calculate_stock_stats
    (stock_data_df : DataFrame) (ticker : string) (current_date : Z)
    : py (option Stats) :=
  ticker_column <- getitem stock_data_df Ticker ;;
  let ticker_data := sort_values_Date (ticker_rows stock_data_df ticker) in
  let current_idx := filter (fun r => Date r <=? current_date) ticker_data in
  if (length current_idx =? 0)%nat then Ok None
  else
    current_price <- iloc (map AdjClose current_idx) (-1) ;;
    (* 1 Year return *)
    let one_year_ago := current_date - one_year in
    let one_year_data :=
      filter (fun r => one_year_ago <=? Date r) ticker_data in
    one_year_return <-
      (if (0 <? length one_year_data)%nat then
         first_price <- iloc (map AdjClose one_year_data) 0 ;;
         Ok (Some (pct_of (Fin current_price) (Fin first_price)))
       else Ok None) ;;
    (* Volatility (annualized) *)
    let returns := dropna (pct_change (map AdjClose ticker_data)) in
    let volatility :=
      if (0 <? length returns)%nat
      then Some (fmul (fmul (Series_std returns) (Fin (np_sqrt 252)))
                      (Fin 100))
      else None in
    (* 52-week high/low *)
    let fifty_two_weeks :=
      filter (fun r => one_year_ago <=? Date r) ticker_data in
    let week_high_low :=
      if (0 <? length fifty_two_weeks)%nat
      then (Some (Series_max (map AdjClose fifty_two_weeks)),
            Some (Series_min (map AdjClose fifty_two_weeks)))
      else (None, None) in
    let week_high := fst week_high_low in
    let week_low := snd week_high_low in
    (* Current vs 52-week *)
    let vs :=
      match week_high, week_low with
      | Some h, Some l =>
          if truthy h && truthy l
          then (Some (pct_of (Fin current_price) h),
                Some (pct_of (Fin current_price) l))
          else (None, None)
      | _, _ => (None, None)
      end in
    Ok (Some {| current_price := Fin current_price;
                one_year_return := one_year_return;
                volatility := volatility;
                week_high := week_high;
                week_low := week_low;
                vs_52w_high := fst vs;
                vs_52w_low := snd vs |}).

End Analytics.

(* ================================================================== *)
(** ** Vocabulary of the specification *)

(** The price series of one ticker, in snapshot order. *)
Definition PriceSeries (df : DataFrame) (ticker : string) : DataFrame :=
  ticker_rows df ticker.

(** Chronological order on observations. *)
Definition date_le (a b : Row) : Prop := Date a <= Date b.

(** The observation [o] is the latest of [series] at or before [d]. *)
Definition latest_at_or_before (series : DataFrame) (d : Z) (o : Row) : Prop :=
  In o series /\ Date o <= d /\
  forall o', In o' series -> Date o' <= d -> Date o' <= Date o.

(** The simple period-over-period returns of the whole series, in
    chronological order, as [calculate_stock_stats] computes them. *)
Definition period_returns (df : DataFrame) (ticker : string) : list npfloat :=
  dropna (pct_change (map AdjClose
    (sort_values_Date (ticker_rows df ticker)))).

(** The rows [calculate_stock_stats] selects as [one_year_data] and again
    as [fifty_two_weeks]. *)
Definition trailing_window (df : DataFrame) (ticker : string)
    (current_date : Z) : DataFrame :=
  filter (fun r => current_date - one_year <=? Date r)
    (sort_values_Date (ticker_rows df ticker)).

(** The rows [get_stock_data_for_period] keeps, before sorting. *)
Definition period_rows (df : DataFrame) (ticker : string)
    (period_start period_end : Z) : DataFrame :=
  filter (period_mask period_start period_end) (ticker_rows df ticker).

(** The rows at or before the reference date, of which
    [calculate_stock_stats] takes the last as the current one. *)
Definition current_rows (df : DataFrame) (ticker : string)
    (current_date : Z) : DataFrame :=
  filter (fun r => Date r <=? current_date)
    (sort_values_Date (ticker_rows df ticker)).

(** Every field of the dictionary [st], in terms of the current row
    [cur], of the trailing window and of the returns. *)
Definition stats_fields (np_sqrt : Q -> Q) (df : DataFrame)
    (ticker : string) (d : Z) (cur : Row) (st : Stats) : Prop :=
  current_price st = Fin (AdjClose cur) /\
  one_year_return st =
    match trailing_window df ticker d with
    | [] => None
    | r0 :: _ => Some (pct_of (Fin (AdjClose cur)) (Fin (AdjClose r0)))
    end /\
  volatility st =
    (if (0 <? length (period_returns df ticker))%nat
     then Some (fmul (fmul (Series_std np_sqrt (period_returns df ticker))
                           (Fin (np_sqrt 252%Q))) (Fin 100))
     else None) /\
  week_high st =
    match trailing_window df ticker d with
    | [] => None
    | w => Some (Series_max (map AdjClose w))
    end /\
  week_low st =
    match trailing_window df ticker d with
    | [] => None
    | w => Some (Series_min (map AdjClose w))
    end /\
  (vs_52w_high st, vs_52w_low st) =
    match week_high st, week_low st with
    | Some h, Some l =>
        if truthy h && truthy l
        then (Some (pct_of (Fin (AdjClose cur)) h),
              Some (pct_of (Fin (AdjClose cur)) l))
        else (None, None)
    | _, _ => (None, None)
    end.

(** The window as the specification words it, to compare with
    [trailing_window]: the 365 calendar days ending at the reference date,
    both ends included. *)
Definition in_trailing_year (reference : Z) (r : Row) : bool :=
  (reference - one_year <=? Date r) && (Date r <=? reference).

(** A square root on the rationals, correct to six decimals: an instance
    of [np.sqrt] to run the analytics on concrete series. *)
Definition sqrt_approx (x : Q) : Q :=
  (Z.sqrt (Qnum x * Zpos (Qden x) * 1000000000000)
   # (Qden x * 1000000))%Q.

Module Examples.

Local Open Scope string_scope.

(** The series of the specification's worked example. *)
Definition spec_series : DataFrame :=
  [ mkRow "T" (days_from_civil 2023 1 1) 100;
    mkRow "T" (days_from_civil 2023 6 1) 120;
    mkRow "T" (days_from_civil 2024 1 1) 90 ].

Definition spec_reference : Z := days_from_civil 2024 1 1.

(** An unsorted series over two tickers. *)
Definition mixed_series : DataFrame :=
  [ mkRow "T" 30 (3 # 1); mkRow "U" 12 (7 # 1); mkRow "T" 10 (2 # 1);
    mkRow "T" 20 (5 # 1); mkRow "T" 40 (4 # 1) ].

(** A series that continues after the reference date 150. *)
Definition lookahead_series : DataFrame :=
  [ mkRow "T" 50 8; mkRow "T" 100 10; mkRow "T" 200 50 ].

(** Three observations, hence two returns, all after day 5. *)
Definition late_series : DataFrame :=
  [ mkRow "T" 10 100; mkRow "T" 11 110; mkRow "T" 12 121 ].

(** Two observations, hence a single return. *)
Definition two_point_series : DataFrame :=
  [ mkRow "T" 1 100; mkRow "T" 2 120 ].

(** A single observation with a zero adjusted close. *)
Definition zero_price_series : DataFrame :=
  [ mkRow "T" 5 0 ].

(** Negative adjusted closes. *)
Definition negative_series : DataFrame :=
  [ mkRow "T" 1 (-4 # 1); mkRow "T" 2 (-2 # 1); mkRow "T" 3 (-3 # 1) ].

(** A zero adjusted close inside the trailing window. *)
Definition zero_low_series : DataFrame :=
  [ mkRow "T" 1 100; mkRow "T" 2 0; mkRow "T" 3 120 ].

(** Four observations at one price. *)
Definition flat_series : DataFrame :=
  [ mkRow "T" 1 (7 # 1); mkRow "T" 2 (7 # 1); mkRow "T" 3 (7 # 1);
    mkRow "T" 4 (7 # 1) ].

End Examples.

(** Strict chronological order on observations. *)
Definition date_lt (a b : Row) : Prop := Date a < Date b.

(* ================================================================== *)
(** ** Pieces of the dashboard's [main] *)

Module Dashboard.

Local Open Scope string_scope.

(** [pct_change >= 0] on a numpy scalar: false on NaN. *)
Definition ge_zero (x : npfloat) : bool :=
  match x with
  | Fin q => Qle_bool 0 q
  | PInf => true
  | NInf | NaN => false
  end.

(** [color = "green" if pct_change >= 0 else "red"] *)
Definition change_color (pct_change : npfloat) : string :=
  if ge_zero pct_change then "green" else "red".

(** The [periods] dictionary: label to number of days, [None] for the
    whole history. *)
Definition periods : list (string * option Z) :=
  [ ("1 Day", Some 1); ("15 Days", Some 15); ("1 Month", Some 30);
    ("5 Years", Some 1825); ("Max", None) ].

(** [d[k]] on a dictionary kept as an association list; [None] stands for
    a missing key. *)
Fixpoint dict_get {V : Type} (d : list (string * V)) (k : string)
    : option V :=
  match d with
  | [] => None
  | (k', v) :: tl => if String.eqb k' k then Some v else dict_get tl k
  end.

(** The period chosen from the five buttons, in the order the script
    tests them: [(selected_period, period_label)], the label [None] until
    a button or the final default sets it. *)
Definition select_period (day1 day15 month1 year5 max : bool)
    : option Z * option string :=
  let sel := (@None Z, @None string) in
  let sel := if day1 then (Some 1, Some "1 Day") else sel in
  let sel := if day15 then (Some 15, Some "15 Days") else sel in
  let sel := if month1 then (Some 30, Some "1 Month") else sel in
  let sel := if year5 then (Some 1825, Some "5 Years") else sel in
  let sel := if max then (None, Some "Max") else sel in
  (* Default to Max *)
  match sel with
  | (None, None) => (None, Some "Max")
  | _ => sel
  end.

End Dashboard.
Export Dashboard.

(* ================================================================== *)
(** ** Facts about the pandas operations *)

Section SortFacts.

Lemma insert_by_Date_perm (r : Row) (l : DataFrame) :
  Permutation (r :: l) (insert_by_Date r l).
Proof.
  induction l as [|x tl IH]; simpl.
  - apply Permutation_refl.
  - destruct (Date r <=? Date x).
    + apply Permutation_refl.
    + eapply perm_trans; [apply perm_swap|].
      now apply perm_skip.
Qed.

Lemma sort_values_Date_perm (l : DataFrame) :
  Permutation l (sort_values_Date l).
Proof.
  induction l as [|x tl IH]; simpl.
  - constructor.
  - eapply perm_trans; [|apply insert_by_Date_perm].
    now apply perm_skip.
Qed.

Lemma sort_values_Date_In (l : DataFrame) (r : Row) :
  In r (sort_values_Date l) <-> In r l.
Proof.
  split; intro H.
  - eapply Permutation_in; [apply Permutation_sym, sort_values_Date_perm|].
    exact H.
  - eapply Permutation_in; [apply sort_values_Date_perm|exact H].
Qed.

Lemma sort_values_Date_length (l : DataFrame) :
  length (sort_values_Date l) = length l.
Proof. symmetry. apply Permutation_length, sort_values_Date_perm. Qed.

Lemma insert_by_Date_sorted (r : Row) (l : DataFrame) :
  StronglySorted date_le l -> StronglySorted date_le (insert_by_Date r l).
Proof.
  induction 1 as [|x tl Hs IH Hx]; simpl.
  - repeat constructor.
  - destruct (Date r <=? Date x) eqn:E.
    + apply Z.leb_le in E.
      constructor; [now constructor|].
      constructor; [exact E|].
      eapply Forall_impl; [|exact Hx].
      intros a Ha. unfold date_le in *. lia.
    + apply Z.leb_gt in E.
      constructor; [exact IH|].
      eapply Permutation_Forall; [apply insert_by_Date_perm|].
      constructor; [unfold date_le; lia|exact Hx].
Qed.

Lemma sort_values_Date_sorted (l : DataFrame) :
  StronglySorted date_le (sort_values_Date l).
Proof.
  induction l as [|x tl IH]; simpl.
  - constructor.
  - now apply insert_by_Date_sorted.
Qed.

Lemma filter_StronglySorted (f : Row -> bool) (l : DataFrame) :
  StronglySorted date_le l -> StronglySorted date_le (filter f l).
Proof.
  induction 1 as [|x tl Hs IH Hx]; simpl.
  - constructor.
  - destruct (f x); [|exact IH].
    constructor; [exact IH|].
    apply Forall_forall. intros a Ha.
    apply filter_In in Ha as [Ha _].
    rewrite Forall_forall in Hx. now apply Hx.
Qed.

(** Sorting an already sorted frame changes nothing. *)
Lemma insert_by_Date_head (r : Row) (l : DataFrame) :
  Forall (date_le r) l -> insert_by_Date r l = r :: l.
Proof.
  destruct l as [|x tl]; simpl; [reflexivity|].
  intro H. inversion H as [|? ? Hx _]; subst.
  unfold date_le in Hx. apply Z.leb_le in Hx. now rewrite Hx.
Qed.

Lemma sort_values_Date_id (l : DataFrame) :
  StronglySorted date_le l -> sort_values_Date l = l.
Proof.
  induction 1 as [|x tl Hs IH Hx]; simpl; [reflexivity|].
  rewrite IH. now apply insert_by_Date_head.
Qed.

(** With unique dates a frame has a single chronological arrangement, so
    the choice of sorting algorithm does not matter. *)
Lemma sorted_perm_unique (l l' : DataFrame) :
  NoDup (map Date l) ->
  Permutation l l' ->
  StronglySorted date_le l -> StronglySorted date_le l' ->
  l = l'.
Proof.
  revert l'. induction l as [|x tl IH]; intros l' Hnd Hp Hs Hs'.
  - apply Permutation_nil in Hp. now subst.
  - destruct l' as [|y tl'].
    + apply Permutation_sym, Permutation_nil in Hp. discriminate.
    + assert (Hxy : x = y).
      { inversion Hs as [|? ? Hs1 Hx]; subst.
        inversion Hs' as [|? ? Hs1' Hy]; subst.
        rewrite Forall_forall in Hx, Hy.
        assert (Hin_y : In y (x :: tl)).
        { eapply Permutation_in; [apply Permutation_sym, Hp|now left]. }
        assert (Hin_x : In x (y :: tl')).
        { eapply Permutation_in; [apply Hp|now left]. }
        destruct Hin_y as [E|Hin_y]; [exact E|].
        destruct Hin_x as [E|Hin_x]; [now symmetry|].
        specialize (Hx _ Hin_y). specialize (Hy _ Hin_x).
        unfold date_le in Hx, Hy.
        assert (Hd : Date x = Date y) by lia.
        simpl in Hnd. inversion Hnd as [|? ? Hnotin _]; subst.
        exfalso. apply Hnotin. rewrite Hd. now apply in_map. }
      subst y. f_equal.
      apply IH.
      * simpl in Hnd. now inversion Hnd.
      * eapply Permutation_cons_inv. exact Hp.
      * now inversion Hs.
      * now inversion Hs'.
Qed.

End SortFacts.

Section IlocFacts.

Context {A : Type}.

Lemma iloc_first (x : A) (l : list A) : iloc (x :: l) 0 = Ok x.
Proof.
  unfold iloc. simpl Z.ltb. cbv iota.
  replace (0 <=? 0) with true by reflexivity.
  replace (0 <? Z.of_nat (length (x :: l))) with true.
  - reflexivity.
  - symmetry. apply Z.ltb_lt. simpl length. lia.
Qed.

Lemma iloc_last (l : list A) (x : A) : iloc (l ++ [x]) (-1) = Ok x.
Proof.
  unfold iloc. change (-1 <? 0) with true. cbv iota zeta.
  rewrite length_app. simpl length.
  replace (Z.of_nat (length l + 1) + -1) with (Z.of_nat (length l)) by lia.
  replace (0 <=? Z.of_nat (length l)) with true
    by (symmetry; apply Z.leb_le; lia).
  replace (Z.of_nat (length l) <? Z.of_nat (length l + 1)) with true
    by (symmetry; apply Z.ltb_lt; lia).
  simpl andb. cbv iota.
  rewrite Nat2Z.id, nth_error_app2 by lia.
  now rewrite Nat.sub_diag.
Qed.

Lemma iloc_empty (i : Z) : iloc (@nil A) i = Raise IndexError.
Proof.
  unfold iloc. simpl length.
  destruct (i <? 0) eqn:E.
  - apply Z.ltb_lt in E.
    replace (0 <=? Z.of_nat 0 + i) with false
      by (symmetry; apply Z.leb_gt; lia).
    reflexivity.
  - apply Z.ltb_ge in E.
    replace (i <? Z.of_nat 0) with false
      by (symmetry; apply Z.ltb_ge; lia).
    now rewrite andb_false_r.
Qed.

Lemma nonempty_snoc (l : list A) :
  l <> [] -> exists front x, l = front ++ [x].
Proof.
  intro H. destruct (exists_last H) as [front [x E]]. eauto.
Qed.

End IlocFacts.

Section ExtremeFacts.

Local Open Scope Q_scope.

Lemma Qmax_cases (x y : Q) : Qmax x y = x \/ Qmax x y = y.
Proof.
  unfold Qmax, GenericMinMax.gmax. destruct (x ?= y); auto.
Qed.

Lemma Qmin_cases (x y : Q) : Qmin x y = x \/ Qmin x y = y.
Proof.
  unfold Qmin, GenericMinMax.gmin. destruct (x ?= y); auto.
Qed.

Lemma fold_Qmax_ge_init (tl : list Q) (p : Q) : p <= fold_left Qmax tl p.
Proof.
  revert p. induction tl as [|x tl IH]; intro p; simpl.
  - apply Qle_refl.
  - eapply Qle_trans; [apply Q.le_max_l|apply IH].
Qed.

Lemma fold_Qmax_ge (tl : list Q) (p x : Q) :
  In x tl -> x <= fold_left Qmax tl p.
Proof.
  revert p. induction tl as [|y tl IH]; intros p Hin; simpl.
  - contradiction.
  - destruct Hin as [->|Hin].
    + eapply Qle_trans; [apply Q.le_max_r|apply fold_Qmax_ge_init].
    + now apply IH.
Qed.

Lemma fold_Qmax_In (tl : list Q) (p : Q) : In (fold_left Qmax tl p) (p :: tl).
Proof.
  revert p. induction tl as [|y tl IH]; intro p; simpl.
  - now left.
  - destruct (IH (Qmax p y)) as [E|Hin].
    + destruct (Qmax_cases p y) as [E'|E'].
      * left. congruence.
      * right. left. congruence.
    + right. now right.
Qed.

Lemma fold_Qmin_le_init (tl : list Q) (p : Q) : fold_left Qmin tl p <= p.
Proof.
  revert p. induction tl as [|x tl IH]; intro p; simpl.
  - apply Qle_refl.
  - eapply Qle_trans; [apply IH|apply Q.le_min_l].
Qed.

Lemma fold_Qmin_le (tl : list Q) (p x : Q) :
  In x tl -> fold_left Qmin tl p <= x.
Proof.
  revert p. induction tl as [|y tl IH]; intros p Hin; simpl.
  - contradiction.
  - destruct Hin as [->|Hin].
    + eapply Qle_trans; [apply fold_Qmin_le_init|apply Q.le_min_r].
    + now apply IH.
Qed.

Lemma fold_Qmin_In (tl : list Q) (p : Q) : In (fold_left Qmin tl p) (p :: tl).
Proof.
  revert p. induction tl as [|y tl IH]; intro p; simpl.
  - now left.
  - destruct (IH (Qmin p y)) as [E|Hin].
    + destruct (Qmin_cases p y) as [E'|E'].
      * left. congruence.
      * right. left. congruence.
    + right. now right.
Qed.

(** [s.max()] is a value of the column and bounds every value of it;
    likewise [s.min()]. *)
Lemma Series_max_spec (ps : list Q) :
  ps <> [] ->
  exists h, Series_max ps = Fin h /\ In h ps /\ forall p, In p ps -> p <= h.
Proof.
  destruct ps as [|p tl]; [congruence|]. intros _.
  exists (fold_left Qmax tl p). split; [reflexivity|]. split.
  - apply fold_Qmax_In.
  - intros q [<-|Hin]; [apply fold_Qmax_ge_init|now apply fold_Qmax_ge].
Qed.

Lemma Series_min_spec (ps : list Q) :
  ps <> [] ->
  exists l, Series_min ps = Fin l /\ In l ps /\ forall p, In p ps -> l <= p.
Proof.
  destruct ps as [|p tl]; [congruence|]. intros _.
  exists (fold_left Qmin tl p). split; [reflexivity|]. split.
  - apply fold_Qmin_In.
  - intros q [<-|Hin]; [apply fold_Qmin_le_init|now apply fold_Qmin_le].
Qed.

End ExtremeFacts.

Section FloatFacts.

Local Open Scope Q_scope.

Lemma Qsign_Eq (q : Q) : Qsign q = Eq <-> q == 0.
Proof. unfold Qsign. symmetry. apply Qeq_alt. Qed.

Lemma truthy_Fin (q : Q) : truthy (Fin q) = true <-> ~ q == 0.
Proof.
  simpl. rewrite negb_true_iff. split.
  - intros H E. apply Qeq_bool_iff in E. congruence.
  - intro H. destruct (Qeq_bool q 0) eqn:E; [|reflexivity].
    apply Qeq_bool_iff in E. contradiction.
Qed.

Lemma fdiv_Fin (a b : Q) : ~ b == 0 -> fdiv (Fin a) (Fin b) = Fin (a / b).
Proof.
  intro H. simpl. destruct (Qsign b) eqn:E; try reflexivity.
  apply Qsign_Eq in E. contradiction.
Qed.

(** On a non-zero base the percentage change is the finite number
    [(a / b - 1) * 100]. *)
Lemma pct_of_Fin (a b : Q) :
  ~ b == 0 -> pct_of (Fin a) (Fin b) = Fin ((a / b - 1) * 100).
Proof.
  intro H. unfold pct_of. now rewrite fdiv_Fin.
Qed.

Lemma pct_of_zero_base (a : Q) :
  pct_of (Fin a) (Fin 0) = inf_times true a \/ pct_of (Fin a) (Fin 0) = NaN.
Proof.
  unfold pct_of. simpl. unfold inf_times.
  destruct (Qsign a); simpl; auto.
Qed.

End FloatFacts.

(* ================================================================== *)
(** ** The shape of the two results *)

Section Shapes.

Variable np_sqrt : Q -> Q.

Lemma length_zero_iff {A : Type} (l : list A) :
  (length l =? 0)%nat = true <-> l = [].
Proof.
  destruct l; simpl; split; intro H; try reflexivity; discriminate.
Qed.

Lemma length_pos_iff {A : Type} (l : list A) :
  (0 <? length l)%nat = true <-> l <> [].
Proof.
  destruct l; simpl; split; intro H; try reflexivity; try discriminate.
  now contradiction H.
Qed.

Lemma period_rows_In df ticker s e r :
  In r (period_rows df ticker s e) <->
  In r (PriceSeries df ticker) /\ s <= Date r <= e.
Proof.
  unfold period_rows, PriceSeries, period_mask.
  rewrite filter_In, andb_true_iff, !Z.leb_le. tauto.
Qed.

Lemma getitem_nonempty {A : Type} (df : DataFrame) (column : Row -> A) :
  df <> [] -> getitem df column = Ok (map column df).
Proof. destruct df; [congruence|reflexivity]. Qed.

Lemma bind_Ok {A B : Type} (a : A) (k : A -> py B) : bind (Ok a) k = k a.
Proof. reflexivity. Qed.

Lemma period_rows_table df ticker s e :
  period_rows df ticker s e <> [] -> df <> [].
Proof. intros H E. subst df. now apply H. Qed.

Lemma current_rows_table df ticker d :
  current_rows df ticker d <> [] -> df <> [].
Proof. intros H E. subst df. now apply H. Qed.

(** A table without records has no [Ticker] column. *)
Lemma window_of_no_table ticker s e :
  get_stock_data_for_period [] ticker s e = Raise KeyError.
Proof. reflexivity. Qed.

(** No row in range: the early [return None, None]. *)
Lemma window_of_no_rows df ticker s e :
  df <> [] ->
  period_rows df ticker s e = [] ->
  get_stock_data_for_period df ticker s e = Ok (None, None).
Proof.
  unfold get_stock_data_for_period, period_rows. intros Hdf H.
  rewrite (getitem_nonempty _ _ Hdf), bind_Ok.
  now rewrite H.
Qed.

(** Some row in range: the sorted rows, and the change from the first to
    the last of them. *)
Lemma window_of_rows df ticker s e :
  period_rows df ticker s e <> [] ->
  exists first rest front last,
    sort_values_Date (period_rows df ticker s e) = first :: rest /\
    sort_values_Date (period_rows df ticker s e) = front ++ [last] /\
    get_stock_data_for_period df ticker s e =
      Ok (Some (sort_values_Date (period_rows df ticker s e)),
          Some (pct_of (Fin (AdjClose last)) (Fin (AdjClose first)))).
Proof.
  intro Hne.
  assert (Hs : sort_values_Date (period_rows df ticker s e) <> []).
  { intro E. apply Hne. apply length_zero_iff_nil.
    now rewrite <- sort_values_Date_length, E. }
  destruct (nonempty_snoc _ Hs) as [front [last Hl]].
  destruct (sort_values_Date (period_rows df ticker s e))
    as [|first rest] eqn:Hf; [congruence|].
  exists first, rest, front, last. repeat split; [exact Hl|].
  unfold get_stock_data_for_period.
  rewrite (getitem_nonempty _ _ (period_rows_table df ticker s e Hne)).
  rewrite bind_Ok. fold (period_rows df ticker s e).
  destruct (length (period_rows df ticker s e) =? 0)%nat eqn:E.
  { apply length_zero_iff in E. contradiction. }
  rewrite Hf.
  replace (0 <? length (first :: rest))%nat with true by reflexivity.
  change (map AdjClose (first :: rest))
    with (AdjClose first :: map AdjClose rest) at 1.
  rewrite iloc_first. rewrite Hl, map_app. simpl map.
  rewrite iloc_last. reflexivity.
Qed.

(** No observation at or before the reference date: the early
    [return {}]. *)
Lemma stats_of_no_current df ticker d :
  df <> [] ->
  current_rows df ticker d = [] ->
  calculate_stock_stats np_sqrt df ticker d = Ok None.
Proof.
  unfold calculate_stock_stats, current_rows. intros Hdf H.
  rewrite (getitem_nonempty _ _ Hdf), bind_Ok.
  now rewrite H.
Qed.

(** A table without records has no [Ticker] column. *)
Lemma stats_of_no_table ticker d :
  calculate_stock_stats np_sqrt [] ticker d = Raise KeyError.
Proof. reflexivity. Qed.

(** Otherwise the full dictionary. *)
Lemma stats_of_current df ticker d front cur :
  current_rows df ticker d = front ++ [cur] ->
  exists st,
    calculate_stock_stats np_sqrt df ticker d = Ok (Some st) /\
    stats_fields np_sqrt df ticker d cur st.
Proof.
  intro Hcur.
  assert (Hdf : df <> []).
  { apply (current_rows_table df ticker d). rewrite Hcur.
    now destruct front. }
  unfold calculate_stock_stats, stats_fields.
  rewrite (getitem_nonempty _ _ Hdf), bind_Ok.
  fold (trailing_window df ticker d). fold (period_returns df ticker).
  fold (current_rows df ticker d).
  rewrite Hcur.
  destruct (length (front ++ [cur]) =? 0)%nat eqn:E.
  { apply length_zero_iff in E. now destruct front. }
  rewrite map_app. simpl map. rewrite iloc_last. unfold bind at 1.
  destruct (trailing_window df ticker d) as [|r0 w] eqn:Hw.
  - simpl. eexists. repeat split.
  - replace (0 <? length (r0 :: w))%nat with true by reflexivity.
    change (map AdjClose (r0 :: w))
      with (AdjClose r0 :: map AdjClose w).
    rewrite iloc_first. unfold bind.
    eexists. split; [reflexivity|].
    cbn [current_price one_year_return volatility week_high week_low
         vs_52w_high vs_52w_low fst snd].
    repeat split.
    destruct (truthy _ && truthy _); reflexivity.
Qed.

(** On a table that has its columns the function returns: the empty
    dictionary or the full one. *)
Lemma stats_cases df ticker d :
  df <> [] ->
  (current_rows df ticker d = [] /\
   calculate_stock_stats np_sqrt df ticker d = Ok None) \/
  (exists front cur st,
     current_rows df ticker d = front ++ [cur] /\
     calculate_stock_stats np_sqrt df ticker d = Ok (Some st) /\
     stats_fields np_sqrt df ticker d cur st).
Proof.
  intro Hdf.
  destruct (current_rows df ticker d) as [|r tl] eqn:E.
  - left. split; [reflexivity|]. now apply stats_of_no_current.
  - right.
    assert (Hne : r :: tl <> []) by discriminate.
    destruct (nonempty_snoc _ Hne) as [front [cur Hl]].
    rewrite Hl in E.
    destruct (stats_of_current df ticker d front cur E) as [st [Hst Hf]].
    exists front, cur, st. now rewrite <- Hl.
Qed.

Lemma stats_inv df ticker d st :
  calculate_stock_stats np_sqrt df ticker d = Ok (Some st) ->
  exists front cur,
    current_rows df ticker d = front ++ [cur] /\
    stats_fields np_sqrt df ticker d cur st.
Proof.
  intro H.
  assert (Hdf : df <> []).
  { intro E. subst df. rewrite stats_of_no_table in H. discriminate. }
  destruct (stats_cases df ticker d Hdf)
    as [[_ E]|[front [cur [st' [Hc [E Hf]]]]]].
  - congruence.
  - rewrite E in H. injection H as <-. eauto.
Qed.

Lemma current_rows_In df ticker d r :
  In r (current_rows df ticker d) <->
  In r (PriceSeries df ticker) /\ Date r <= d.
Proof.
  unfold current_rows, PriceSeries.
  now rewrite filter_In, sort_values_Date_In, Z.leb_le.
Qed.

Lemma trailing_window_In df ticker d r :
  In r (trailing_window df ticker d) <->
  In r (PriceSeries df ticker) /\ d - one_year <= Date r.
Proof.
  unfold trailing_window, PriceSeries.
  now rewrite filter_In, sort_values_Date_In, Z.leb_le.
Qed.

Lemma current_rows_sorted df ticker d :
  StronglySorted date_le (current_rows df ticker d).
Proof. apply filter_StronglySorted, sort_values_Date_sorted. Qed.

Lemma trailing_window_sorted df ticker d :
  StronglySorted date_le (trailing_window df ticker d).
Proof. apply filter_StronglySorted, sort_values_Date_sorted. Qed.

End Shapes.

(* ================================================================== *)
(** ** PeriodWindower: [get_stock_data_for_period] *)

Section PeriodWindower.

Import Examples.

Lemma StronglySorted_first (first : Row) (rest : DataFrame) :
  StronglySorted date_le (first :: rest) ->
  forall r, In r (first :: rest) -> Date first <= Date r.
Proof.
  intros Hs r [<-|Hin]; [lia|].
  inversion Hs as [|? ? _ Hall]; subst.
  rewrite Forall_forall in Hall. now apply Hall.
Qed.

Lemma StronglySorted_last (front : DataFrame) (last : Row) :
  StronglySorted date_le (front ++ [last]) ->
  forall r, In r (front ++ [last]) -> Date r <= Date last.
Proof.
  induction front as [|a front IH]; simpl; intros Hs r Hin.
  - destruct Hin as [<-|[]]. lia.
  - inversion Hs as [|? ? Hs' Hall]; subst.
    destruct Hin as [<-|Hin].
    + rewrite Forall_forall in Hall. apply Hall.
      apply in_or_app. right. now left.
    + now apply IH.
Qed.

(** C4. For a series in any order and a period [start, end] holding at
    least one observation, the window is exactly the observations with
    start <= date <= end, in ascending order of date, and the percentage
    change is (lastClose / firstClose - 1) * 100 for the chronologically
    first and last of them. *)
Theorem window_inclusive_sorted_change
    (df : DataFrame) (ticker : string) (s e : Z) :
  (exists r, In r (PriceSeries df ticker) /\ s <= Date r <= e) ->
  exists obs first last,
    get_stock_data_for_period df ticker s e =
      Ok (Some obs,
          Some (pct_of (Fin (AdjClose last)) (Fin (AdjClose first)))) /\
    Permutation obs (period_rows df ticker s e) /\
    (forall r, In r obs <->
               In r (PriceSeries df ticker) /\ s <= Date r <= e) /\
    StronglySorted date_le obs /\
    hd_error obs = Some first /\
    (exists front, obs = front ++ [last]) /\
    (forall r, In r obs -> Date first <= Date r <= Date last) /\
    (~ (AdjClose first == 0)%Q ->
     pct_of (Fin (AdjClose last)) (Fin (AdjClose first)) =
     Fin ((AdjClose last / AdjClose first - 1) * 100)%Q).
Proof.
  intros [r0 Hr0].
  assert (Hne : period_rows df ticker s e <> []).
  { intro E. apply period_rows_In in Hr0. rewrite E in Hr0. exact Hr0. }
  destruct (window_of_rows df ticker s e Hne)
    as [first [rest [front [last [Hf [Hl Hres]]]]]].
  pose proof (sort_values_Date_sorted (period_rows df ticker s e)) as Hs.
  exists (sort_values_Date (period_rows df ticker s e)), first, last.
  split; [exact Hres|].
  split; [apply Permutation_sym, sort_values_Date_perm|].
  split; [intro r; rewrite sort_values_Date_In; apply period_rows_In|].
  split; [exact Hs|].
  split; [now rewrite Hf|].
  split; [now exists front|].
  split; [|apply pct_of_Fin].
  intros r Hin. split.
  - rewrite Hf in Hs, Hin. now apply (StronglySorted_first first rest).
  - rewrite Hl in Hs, Hin. now apply (StronglySorted_last front last).
Qed.

Lemma window_inclusive_sorted_change_witness :
  exists obs first last,
    get_stock_data_for_period mixed_series "T" 15 40 =
      Ok (Some obs,
          Some (pct_of (Fin (AdjClose last)) (Fin (AdjClose first)))) /\
    Permutation obs (period_rows mixed_series "T" 15 40) /\
    (forall r, In r obs <->
               In r (PriceSeries mixed_series "T") /\ 15 <= Date r <= 40) /\
    StronglySorted date_le obs /\
    hd_error obs = Some first /\
    (exists front, obs = front ++ [last]) /\
    (forall r, In r obs -> Date first <= Date r <= Date last) /\
    (~ (AdjClose first == 0)%Q ->
     pct_of (Fin (AdjClose last)) (Fin (AdjClose first)) =
     Fin ((AdjClose last / AdjClose first - 1) * 100)%Q).
Proof.
  apply (window_inclusive_sorted_change mixed_series "T" 15 40).
  exists (mkRow "T" 30 (3 # 1)). split.
  - simpl. now left.
  - simpl. lia.
Defined.

(** C5, as stated, fails on a table without records: built by
    [pd.DataFrame([])] it has no [Ticker] column, and the call raises
    KeyError although start > end and no observation is in the period. *)
Lemma window_empty_table_raises :
  15 < 40 /\
  (forall r, In r (PriceSeries [] "T") -> ~ (40 <= Date r <= 15)) /\
  get_stock_data_for_period [] "T" 40 15 = Raise KeyError /\
  ~ succeeds (get_stock_data_for_period [] "T" 40 15).
Proof.
  split; [lia|]. split; [intros r []|]. split; [reflexivity|].
  intros [a E]. discriminate E.
Qed.

(** C5, amended. On a table with at least one row, when start > end, and
    whenever no observation falls in [start, end], the call returns
    without raising, with an empty window and no percentage change: the
    second component is [None], which is not the number zero. *)
Theorem window_empty_no_change
    (df : DataFrame) (ticker : string) (s e : Z) :
  df <> [] ->
  (e < s \/
   forall r, In r (PriceSeries df ticker) -> ~ (s <= Date r <= e)) ->
  succeeds (get_stock_data_for_period df ticker s e) /\
  get_stock_data_for_period df ticker s e = Ok (None, None) /\
  forall obs z,
    feq z (Fin 0) ->
    get_stock_data_for_period df ticker s e <> Ok (obs, Some z).
Proof.
  intros Hdf H.
  assert (Hnone : forall r, In r (PriceSeries df ticker) ->
                            ~ (s <= Date r <= e)).
  { destruct H as [H|H]; [|exact H]. intros r _ Hr. lia. }
  assert (E : period_rows df ticker s e = []).
  { destruct (period_rows df ticker s e) as [|r tl] eqn:E; [reflexivity|].
    assert (Hin : In r (period_rows df ticker s e))
      by (rewrite E; now left).
    apply period_rows_In in Hin as [Hin Hr].
    exfalso. exact (Hnone r Hin Hr). }
  pose proof (window_of_no_rows df ticker s e Hdf E) as Hres.
  split; [eexists; exact Hres|].
  split; [exact Hres|].
  intros obs z _. rewrite Hres. discriminate.
Qed.

Lemma window_empty_no_change_witness :
  succeeds (get_stock_data_for_period mixed_series "T" 40 15) /\
  get_stock_data_for_period mixed_series "T" 40 15 = Ok (None, None) /\
  forall obs z,
    feq z (Fin 0) ->
    get_stock_data_for_period mixed_series "T" 40 15 <> Ok (obs, Some z).
Proof.
  apply (window_empty_no_change mixed_series "T" 40 15).
  - discriminate.
  - left. lia.
Defined.

(** C6, as stated, fails on a zero price: the only observation of the
    window of [zero_price_series] over [5, 5] has adjusted close 0, and
    the percentage change is NaN (0 / 0), not 0. *)
Lemma window_single_zero_price_nan :
  period_rows zero_price_series "T" 5 5 = [mkRow "T" 5 0] /\
  get_stock_data_for_period zero_price_series "T" 5 5 =
    Ok (Some [mkRow "T" 5 0], Some NaN) /\
  ~ (exists obs z,
       get_stock_data_for_period zero_price_series "T" 5 5 =
         Ok (obs, Some z) /\ feq z (Fin 0)).
Proof.
  split; [reflexivity|]. split; [reflexivity|].
  intros [obs [z [E Hz]]].
  vm_compute in E. inversion E; subst z. exact Hz.
Qed.

(** C6, amended. When exactly one observation falls in [start, end] and
    its adjusted close is not zero, the percentage change is defined and
    equal to 0. *)
Theorem window_single_observation_zero_change
    (df : DataFrame) (ticker : string) (s e : Z) (r : Row) :
  period_rows df ticker s e = [r] ->
  ~ (AdjClose r == 0)%Q ->
  exists z,
    get_stock_data_for_period df ticker s e = Ok (Some [r], Some z) /\
    feq z (Fin 0).
Proof.
  intros Hone Hp.
  assert (Hne : period_rows df ticker s e <> []) by (rewrite Hone; discriminate).
  destruct (window_of_rows df ticker s e Hne)
    as [first [rest [front [last [Hf [Hl Hres]]]]]].
  rewrite Hone in Hf, Hl, Hres. simpl in Hf, Hl, Hres.
  injection Hf as <- <-.
  assert (last = r).
  { destruct front as [|a [|b front]]; simpl in Hl.
    - now injection Hl.
    - discriminate.
    - discriminate. }
  subst last.
  exists (pct_of (Fin (AdjClose r)) (Fin (AdjClose r))).
  split; [exact Hres|].
  rewrite pct_of_Fin by exact Hp. simpl. field. exact Hp.
Qed.

Lemma window_single_observation_zero_change_witness :
  exists z,
    get_stock_data_for_period mixed_series "T" 20 20 =
      Ok (Some [mkRow "T" 20 (5 # 1)], Some z) /\
    feq z (Fin 0).
Proof.
  apply (window_single_observation_zero_change mixed_series "T" 20 20).
  - reflexivity.
  - simpl. intro H. discriminate H.
Defined.

End PeriodWindower.

(* ================================================================== *)
(** ** RiskStatsEngine: [calculate_stock_stats] *)

Lemma sqrt_approx_nonneg (x : Q) : (0 <= x)%Q -> (0 <= sqrt_approx x)%Q.
Proof.
  intros _. unfold sqrt_approx, Qle. simpl. rewrite Z.mul_1_r.
  apply Z.sqrt_nonneg.
Qed.

Lemma Qsum_nonneg (qs : list Q) :
  Forall (fun q => 0 <= q)%Q qs -> (0 <= Qsum qs)%Q.
Proof.
  induction 1 as [|q qs Hq _ IH]; simpl.
  - apply Qle_refl.
  - change (0 <= q + Qsum qs)%Q.
    rewrite <- (Qplus_0_l 0). now apply Qplus_le_compat.
Qed.

Lemma sum_sq_dev_nonneg (qs : list Q) : (0 <= sum_sq_dev qs)%Q.
Proof.
  unfold sum_sq_dev. apply Qsum_nonneg.
  apply Forall_forall. intros y Hy.
  apply in_map_iff in Hy as [q [<- _]].
  generalize (q - mean qs)%Q. intro t.
  destruct (Qlt_le_dec t 0) as [Hneg|Hpos].
  - setoid_replace (t * t)%Q with ((- t) * (- t))%Q by ring.
    apply Qmult_le_0_compat; lra.
  - now apply Qmult_le_0_compat.
Qed.

(** The sample variance of two or more values is non-negative. *)
Lemma sample_var_nonneg (qs : list Q) :
  (2 <= length qs)%nat -> (0 <= sample_var qs)%Q.
Proof.
  intro Hlen. unfold sample_var.
  apply Qle_shift_div_l.
  - unfold Qcount, Qlt, Qminus, Qplus. simpl. lia.
  - rewrite Qmult_0_l. apply sum_sq_dev_nonneg.
Qed.

Section RiskStatsEngine.

Import Examples.

Variable np_sqrt : Q -> Q.
Hypothesis np_sqrt_nonneg : forall x : Q, (0 <= x)%Q -> (0 <= np_sqrt x)%Q.

(** The last of the current rows is the latest observation at or before
    the reference date. *)
Lemma current_row_latest df ticker d front cur :
  current_rows df ticker d = front ++ [cur] ->
  latest_at_or_before (PriceSeries df ticker) d cur.
Proof.
  intro E.
  assert (Hin : In cur (current_rows df ticker d)).
  { rewrite E. apply in_or_app. right. now left. }
  apply current_rows_In in Hin as [Hin Hd].
  split; [exact Hin|]. split; [exact Hd|].
  intros o' Ho' Hd'.
  pose proof (current_rows_sorted df ticker d) as Hs.
  rewrite E in Hs.
  apply (StronglySorted_last front cur Hs).
  rewrite <- E. apply current_rows_In. now split.
Qed.

(** C9, amended. On a table with at least one row
    [calculate_stock_stats] never raises.  It returns the empty
    dictionary, every field of which reads as absent, exactly when no
    observation is dated at or before the reference date; otherwise its
    current price is the adjusted close of the latest observation at or
    before the reference date, whether or not that date is in the
    series. *)
Theorem current_price_latest_or_empty
    (df : DataFrame) (ticker : string) (d : Z) :
  df <> [] ->
  succeeds (calculate_stock_stats np_sqrt df ticker d) /\
  (calculate_stock_stats np_sqrt df ticker d = Ok None <->
   forall o, In o (PriceSeries df ticker) -> d < Date o) /\
  (forall res,
     calculate_stock_stats np_sqrt df ticker d = Ok res ->
     (forall o, In o (PriceSeries df ticker) -> d < Date o) ->
     stats_get_current_price res = None /\
     forall field, stats_get field res = None) /\
  (forall st,
     calculate_stock_stats np_sqrt df ticker d = Ok (Some st) ->
     exists o,
       latest_at_or_before (PriceSeries df ticker) d o /\
       current_price st = Fin (AdjClose o)).
Proof.
  intro Hdf.
  assert (Hiff : calculate_stock_stats np_sqrt df ticker d = Ok None <->
                 forall o, In o (PriceSeries df ticker) -> d < Date o).
  { destruct (stats_cases np_sqrt df ticker d Hdf)
      as [[Hc E]|[front [cur [st [Hc [E Hf]]]]]].
    - split; [|intros _; exact E].
      intros _ o Ho.
      destruct (Z.lt_ge_cases d (Date o)) as [Hlt|Hge]; [exact Hlt|].
      assert (Hin : In o (current_rows df ticker d))
        by (apply current_rows_In; now split).
      rewrite Hc in Hin. contradiction.
    - split; [congruence|].
      intro Hnone. exfalso.
      destruct (current_row_latest df ticker d front cur Hc) as [Hin [Hd _]].
      specialize (Hnone cur Hin). lia. }
  split; [|split; [exact Hiff|split]].
  - destruct (stats_cases np_sqrt df ticker d Hdf)
      as [[_ E]|[front [cur [st [_ [E _]]]]]]; eexists; exact E.
  - intros res Hres Hnone.
    apply Hiff in Hnone. rewrite Hnone in Hres. injection Hres as <-.
    split; [reflexivity|]. intro field. reflexivity.
  - intros st Hst.
    destruct (stats_inv np_sqrt df ticker d st Hst)
      as [front [cur [Hc [Hp _]]]].
    exists cur. split; [|exact Hp].
    now apply (current_row_latest df ticker d front cur).
Qed.

(** C8. Whenever the 52-week high and the 52-week low are both present,
    the high is at least the low. *)
Theorem week_high_ge_week_low
    (df : DataFrame) (ticker : string) (d : Z) (st : Stats)
    (h l : npfloat) :
  calculate_stock_stats np_sqrt df ticker d = Ok (Some st) ->
  week_high st = Some h ->
  week_low st = Some l ->
  fle l h.
Proof.
  intros Hst Hh Hl.
  destruct (stats_inv np_sqrt df ticker d st Hst)
    as [front [cur [_ [_ [_ [_ [Hhigh [Hlow _]]]]]]]].
  destruct (trailing_window df ticker d) as [|r0 w].
  - congruence.
  - rewrite Hh in Hhigh. rewrite Hl in Hlow.
    injection Hhigh as ->. injection Hlow as ->.
    simpl. eapply Qle_trans.
    + apply fold_Qmin_le_init.
    + apply fold_Qmax_ge_init.
Qed.

(** The extremes are present together, and then they are the largest
    and the smallest adjusted close of the trailing window. *)
Lemma week_extremes_spec df ticker d st :
  calculate_stock_stats np_sqrt df ticker d = Ok (Some st) ->
  (trailing_window df ticker d = [] /\
   week_high st = None /\ week_low st = None) \/
  (exists h l rh rl,
     week_high st = Some (Fin h) /\ week_low st = Some (Fin l) /\
     In rh (trailing_window df ticker d) /\ AdjClose rh = h /\
     In rl (trailing_window df ticker d) /\ AdjClose rl = l /\
     forall r, In r (trailing_window df ticker d) ->
               (l <= AdjClose r <= h)%Q).
Proof.
  intro Hst.
  destruct (stats_inv np_sqrt df ticker d st Hst)
    as [front [cur [_ [_ [_ [_ [Hhigh [Hlow _]]]]]]]].
  destruct (trailing_window df ticker d) as [|r0 w] eqn:Hw.
  - left. auto.
  - right.
    assert (Hne : map AdjClose (r0 :: w) <> []) by discriminate.
    destruct (Series_max_spec _ Hne) as [h [Eh [Hinh Hmax]]].
    destruct (Series_min_spec _ Hne) as [l [El [Hinl Hmin]]].
    apply in_map_iff in Hinh as [rh [Erh Hrh]].
    apply in_map_iff in Hinl as [rl [Erl Hrl]].
    exists h, l, rh, rl.
    rewrite Hhigh, Hlow, Eh, El.
    repeat split; auto.
    + apply Hmin. now apply in_map.
    + apply Hmax. now apply in_map.
Qed.

(** The one-year return, when present, is taken from the earliest
    observation of the trailing window. *)
Lemma one_year_return_spec df ticker d st :
  calculate_stock_stats np_sqrt df ticker d = Ok (Some st) ->
  (trailing_window df ticker d = [] /\ one_year_return st = None) \/
  (exists c r0,
     current_price st = Fin c /\
     one_year_return st = Some (pct_of (Fin c) (Fin (AdjClose r0))) /\
     In r0 (trailing_window df ticker d) /\
     forall r, In r (trailing_window df ticker d) -> Date r0 <= Date r).
Proof.
  intro Hst.
  destruct (stats_inv np_sqrt df ticker d st Hst)
    as [front [cur [_ [Hc [Hret _]]]]].
  pose proof (trailing_window_sorted df ticker d) as Hs.
  destruct (trailing_window df ticker d) as [|r0 w].
  - left. auto.
  - right. exists (AdjClose cur), r0.
    repeat split; try assumption; [now left|].
    now apply StronglySorted_first.
Qed.

(** C10. When both extremes are present and one of them is 0, the two
    distances are absent, although the current price is there. *)
Theorem zero_extreme_no_distances
    (df : DataFrame) (ticker : string) (d : Z) (st : Stats)
    (h l : npfloat) :
  calculate_stock_stats np_sqrt df ticker d = Ok (Some st) ->
  week_high st = Some h ->
  week_low st = Some l ->
  feq h (Fin 0) \/ feq l (Fin 0) ->
  vs_52w_high st = None /\ vs_52w_low st = None /\
  exists c, current_price st = Fin c.
Proof.
  intros Hst Hh Hl Hzero.
  destruct (stats_inv np_sqrt df ticker d st Hst)
    as [front [cur [_ [Hc [_ [_ [_ [_ Hvs]]]]]]]].
  rewrite Hh, Hl in Hvs.
  assert (Hf : truthy h && truthy l = false).
  { destruct Hzero as [Hz|Hz].
    - destruct h as [q| | |]; simpl in Hz; try contradiction.
      apply Qeq_bool_iff in Hz. simpl. now rewrite Hz.
    - destruct l as [q| | |]; simpl in Hz; try contradiction.
      apply Qeq_bool_iff in Hz. simpl. rewrite Hz.
      apply andb_false_r. }
  rewrite Hf in Hvs. injection Hvs as -> ->.
  repeat split. now exists (AdjClose cur).
Qed.

Lemma pct_sign_between (c h l : Q) :
  (0 < l)%Q -> (l <= c <= h)%Q ->
  ((c / h - 1) * 100 <= 0)%Q /\ (0 <= (c / l - 1) * 100)%Q.
Proof.
  intros Hl [Hlc Hch].
  assert (Hh : (0 < h)%Q) by lra.
  assert (H1 : (c / h <= 1)%Q).
  { apply Qle_shift_div_r; [exact Hh|lra]. }
  assert (H2 : (1 <= c / l)%Q).
  { apply Qle_shift_div_l; [exact Hl|lra]. }
  revert H1 H2. generalize (c / h)%Q (c / l)%Q. intros t u H1 H2.
  split; lra.
Qed.

(** C7, amended. Whenever both distances are returned they are
    (currentPrice / week52High - 1) * 100 and
    (currentPrice / week52Low - 1) * 100; if moreover the 52-week low is
    positive and the current price lies within [week52Low, week52High],
    the distance from the high is <= 0 and the distance from the low is
    >= 0. *)
Theorem distances_from_extremes
    (df : DataFrame) (ticker : string) (d : Z) (st : Stats)
    (dh dl : npfloat) :
  calculate_stock_stats np_sqrt df ticker d = Ok (Some st) ->
  vs_52w_high st = Some dh ->
  vs_52w_low st = Some dl ->
  exists c h l,
    current_price st = Fin c /\
    week_high st = Some (Fin h) /\
    week_low st = Some (Fin l) /\
    dh = pct_of (Fin c) (Fin h) /\
    dl = pct_of (Fin c) (Fin l) /\
    dh = Fin ((c / h - 1) * 100)%Q /\
    dl = Fin ((c / l - 1) * 100)%Q /\
    ((0 < l)%Q -> (l <= c <= h)%Q -> fle_q dh 0 /\ fge_q dl 0).
Proof.
  intros Hst Hdh Hdl.
  destruct (stats_inv np_sqrt df ticker d st Hst)
    as [front [cur [_ [Hc [_ [_ [Hhigh [Hlow Hvs]]]]]]]].
  rewrite Hdh, Hdl in Hvs.
  destruct (trailing_window df ticker d) as [|r0 w].
  { rewrite Hhigh in Hvs. discriminate. }
  rewrite Hhigh, Hlow in Hvs.
  set (h := fold_left Qmax (map AdjClose w) (AdjClose r0)) in *.
  set (l := fold_left Qmin (map AdjClose w) (AdjClose r0)) in *.
  change (Series_max (map AdjClose (r0 :: w))) with (Fin h) in *.
  change (Series_min (map AdjClose (r0 :: w))) with (Fin l) in *.
  destruct (truthy (Fin h) && truthy (Fin l)) eqn:Ht; [|discriminate].
  apply andb_true_iff in Ht as [Hth Htl].
  apply truthy_Fin in Hth. apply truthy_Fin in Htl.
  injection Hvs as -> ->.
  exists (AdjClose cur), h, l.
  rewrite (pct_of_Fin _ h Hth), (pct_of_Fin _ l Htl).
  repeat split; try assumption.
  - simpl. now apply (pct_sign_between (AdjClose cur) h l).
  - simpl. now apply (pct_sign_between (AdjClose cur) h l).
Qed.

Lemma finite_values_all (xs : list npfloat) :
  Forall (fun x => is_finite x = true) xs ->
  dropna xs = xs /\
  exists qs, finite_values xs = Some qs /\ length qs = length xs.
Proof.
  induction 1 as [|x xs Hx _ [IHd [qs [IHf IHl]]]].
  - split; [reflexivity|]. now exists [].
  - destruct x as [q| | |]; try discriminate.
    split.
    + unfold dropna in *. simpl. now rewrite IHd.
    + exists (q :: qs). simpl. rewrite IHf. split; [reflexivity|].
      now rewrite IHl.
Qed.

(** The standard deviation of two or more finite returns is a
    non-negative number. *)
Lemma Series_std_nonneg (xs : list npfloat) :
  Forall (fun x => is_finite x = true) xs ->
  (2 <= length xs)%nat ->
  exists sd, Series_std np_sqrt xs = Fin sd /\ (0 <= sd)%Q.
Proof.
  intros Hfin Hlen.
  destruct (finite_values_all xs Hfin) as [Hd [qs [Hf Hl]]].
  unfold Series_std. rewrite Hd, Hf.
  destruct (length qs <=? 1)%nat eqn:E.
  - apply Nat.leb_le in E. lia.
  - eexists. split; [reflexivity|].
    apply np_sqrt_nonneg, sample_var_nonneg. lia.
Qed.

(** A series of fewer than two observations has no return. *)
Lemma period_returns_short df ticker :
  (length (PriceSeries df ticker) < 2)%nat ->
  period_returns df ticker = [].
Proof.
  unfold period_returns, PriceSeries.
  destruct (ticker_rows df ticker) as [|r [|r' tl]]; simpl; intro H.
  - reflexivity.
  - reflexivity.
  - lia.
Qed.

(** C2, amended. On a table with at least one row the function returns,
    and the annualized volatility is absent when the series has no
    period-over-period return (in particular when it has fewer than 2
    observations) and when no observation is dated at or before the
    reference date; it is a number >= 0 when some observation is dated at
    or before the reference date and the series has at least 2 returns,
    all of them finite. *)
Theorem volatility_absent_or_nonneg
    (df : DataFrame) (ticker : string) (d : Z) :
  df <> [] ->
  exists res,
    calculate_stock_stats np_sqrt df ticker d = Ok res /\
    (length (period_returns df ticker) = 0%nat ->
     stats_get volatility res = None) /\
    ((length (PriceSeries df ticker) < 2)%nat ->
     stats_get volatility res = None) /\
    ((forall o, In o (PriceSeries df ticker) -> d < Date o) ->
     stats_get volatility res = None) /\
    ((exists o, In o (PriceSeries df ticker) /\ Date o <= d) ->
     (2 <= length (period_returns df ticker))%nat ->
     Forall (fun x => is_finite x = true) (period_returns df ticker) ->
     exists v, stats_get volatility res = Some (Fin v) /\ (0 <= v)%Q).
Proof.
  intro Hdf.
  assert (Hzero : forall res,
    calculate_stock_stats np_sqrt df ticker d = Ok res ->
    length (period_returns df ticker) = 0%nat ->
    stats_get volatility res = None).
  { intros [st|] Hres Hlen; [|reflexivity].
    destruct (stats_inv np_sqrt df ticker d st Hres)
      as [front [cur [_ [_ [_ [Hvol _]]]]]].
    simpl. rewrite Hvol, Hlen. reflexivity. }
  destruct (stats_cases np_sqrt df ticker d Hdf)
    as [[Hc E]|[front [cur [st [Hc [E Hf]]]]]].
  - exists None. split; [exact E|].
    split; [now apply Hzero|].
    split; [reflexivity|]. split; [reflexivity|].
    intros [o [Hin Hd]] _ _. exfalso.
    assert (Ho : In o (current_rows df ticker d))
      by (apply current_rows_In; now split).
    rewrite Hc in Ho. contradiction.
  - exists (Some st). split; [exact E|].
    split; [now apply Hzero|].
    split.
    { intro Hlen. apply (Hzero _ E).
      now rewrite period_returns_short. }
    split.
    { intro Hnone. exfalso.
      destruct (current_row_latest df ticker d front cur Hc) as [Hin [Hd _]].
      specialize (Hnone cur Hin). lia. }
    intros _ Hlen Hfin.
    destruct Hf as [_ [_ [Hvol _]]].
    destruct (Series_std_nonneg _ Hfin Hlen) as [sd [Hsd Hnn]].
    simpl. rewrite Hvol, Hsd.
    destruct (0 <? length (period_returns df ticker))%nat eqn:Hpos.
    + simpl. eexists. split; [reflexivity|].
      apply Qmult_le_0_compat; [|discriminate].
      apply Qmult_le_0_compat; [exact Hnn|].
      apply np_sqrt_nonneg. discriminate.
    + apply Nat.ltb_ge in Hpos. lia.
Qed.

(** With non-zero prices every return is finite, and there is one return
    fewer than observations. *)
Lemma pct_change_from_finite (prev : Q) (ps : list Q) :
  ~ (prev == 0)%Q ->
  Forall (fun p => ~ (p == 0)%Q) ps ->
  Forall (fun x => is_finite x = true) (pct_change_from prev ps) /\
  length (pct_change_from prev ps) = length ps.
Proof.
  revert prev. induction ps as [|p ps IH]; intros prev Hprev Hall; simpl.
  - split; [constructor|reflexivity].
  - inversion Hall as [|? ? Hp Hps]; subst.
    destruct (IH p Hp Hps) as [IHf IHl].
    split; [|now rewrite IHl].
    constructor; [|exact IHf].
    destruct (Qsign prev) eqn:E; try reflexivity.
    apply Qsign_Eq in E. contradiction.
Qed.

Lemma period_returns_nonzero_prices df ticker :
  (forall r, In r (PriceSeries df ticker) -> ~ (AdjClose r == 0)%Q) ->
  Forall (fun x => is_finite x = true) (period_returns df ticker) /\
  length (period_returns df ticker) =
    (length (PriceSeries df ticker) - 1)%nat.
Proof.
  intro Hnz. unfold period_returns, PriceSeries in *.
  rewrite <- (sort_values_Date_length (ticker_rows df ticker)).
  assert (Hall : Forall (fun p => ~ (p == 0)%Q)
            (map AdjClose (sort_values_Date (ticker_rows df ticker)))).
  { apply Forall_forall. intros p Hp.
    apply in_map_iff in Hp as [r [<- Hr]].
    apply Hnz. now apply sort_values_Date_In. }
  rewrite <- (length_map AdjClose).
  destruct (map AdjClose (sort_values_Date (ticker_rows df ticker)))
    as [|p ps]; simpl.
  - split; [constructor|reflexivity].
  - inversion Hall as [|? ? Hp Hps]; subst.
    destruct (pct_change_from_finite p ps Hp Hps) as [Hf Hl].
    destruct (finite_values_all _ Hf) as [Hd _].
    fold (dropna (pct_change_from p ps)). rewrite Hd.
    split; [exact Hf|]. rewrite Hl. lia.
Qed.

(** Without observations after the reference date, the trailing window
    is the 365-day window that ends at the reference date. *)
Lemma trailing_window_bounded df ticker d :
  (forall r, In r (PriceSeries df ticker) -> Date r <= d) ->
  trailing_window df ticker d =
  filter (in_trailing_year d) (sort_values_Date (ticker_rows df ticker)).
Proof.
  intro Hle. unfold trailing_window. apply filter_ext_in.
  intros r Hr. apply -> sort_values_Date_In in Hr.
  unfold in_trailing_year.
  replace (Date r <=? d) with true; [now rewrite andb_true_r|].
  symmetry. apply Z.leb_le. now apply Hle.
Qed.

(** C3, amended. On the series [(2023-01-01, 100), (2023-06-01, 120),
    (2024-01-01, 90)] with reference date 2024-01-01 the one-year return
    is -10 (from 100, the price of 2023-01-01, to 90); the 52-week high
    is 120, the low 90, the current price 90, the distance from the high
    -25 and the distance from the low 0. *)
Theorem spec_example_stats :
  exists st oyr dh dl,
    calculate_stock_stats np_sqrt spec_series "T" spec_reference =
      Ok (Some st) /\
    one_year_return st = Some oyr /\ approx oyr (-10) /\
    feq oyr (Fin (-10)) /\
    week_high st = Some (Fin 120) /\
    week_low st = Some (Fin 90) /\
    current_price st = Fin 90 /\
    vs_52w_high st = Some dh /\ approx dh (-25) /\
    vs_52w_low st = Some dl /\ feq dl (Fin 0).
Proof.
  do 4 eexists. split; [vm_compute; reflexivity|].
  cbn [one_year_return week_high week_low current_price
       vs_52w_high vs_52w_low].
  repeat split; vm_compute; congruence.
Qed.

End RiskStatsEngine.

(* ================================================================== *)
(** ** The analytics on concrete series *)

Section Concrete.

Import Examples.

(** C9, as stated, fails on a table without records: built by
    [pd.DataFrame([])] it has no [Ticker] column, so although no
    observation is dated at or before the reference date the call raises
    KeyError instead of returning the empty dictionary. *)
Lemma stats_empty_table_raises :
  (forall o, In o (PriceSeries [] "T") -> 5 < Date o) /\
  calculate_stock_stats sqrt_approx [] "T" 5 = Raise KeyError /\
  ~ succeeds (calculate_stock_stats sqrt_approx [] "T" 5) /\
  calculate_stock_stats sqrt_approx [] "T" 5 <> Ok None.
Proof.
  split; [intros o []|]. split; [reflexivity|]. split.
  - intros [a E]. discriminate E.
  - discriminate.
Qed.

Lemma current_price_latest_or_empty_witness :
  exists st o,
    calculate_stock_stats sqrt_approx mixed_series "T" 35 = Ok (Some st) /\
    latest_at_or_before (PriceSeries mixed_series "T") 35 o /\
    current_price st = Fin (AdjClose o) /\
    Date o = 30.
Proof.
  assert (Hdf : mixed_series <> []) by discriminate.
  destruct (current_price_latest_or_empty sqrt_approx mixed_series "T" 35
              Hdf)
    as [[res Hres] [_ [_ Hlatest]]].
  destruct res as [st|]; [|vm_compute in Hres; discriminate].
  destruct (Hlatest st Hres) as [o [Ho Hp]].
  exists st, o. repeat split; try assumption; try apply Ho.
  destruct Ho as [Hin [Hd Hmax]].
  assert (H30 : 30 <= Date o).
  { apply (Hmax (mkRow "T" 30 (3 # 1))); [simpl; now left|simpl; lia]. }
  simpl in Hin.
  destruct Hin as [<-|[<-|[<-|[<-|[]]]]]; simpl in *; lia.
Defined.

Lemma week_high_ge_week_low_witness :
  exists st,
    calculate_stock_stats sqrt_approx mixed_series "T" 35 = Ok (Some st) /\
    week_high st = Some (Fin 5) /\
    week_low st = Some (Fin 2) /\
    fle (Fin 2) (Fin 5).
Proof.
  eexists. split; [vm_compute; reflexivity|].
  split; [reflexivity|]. split; [reflexivity|].
  eapply (week_high_ge_week_low sqrt_approx mixed_series "T" 35).
  - vm_compute. reflexivity.
  - reflexivity.
  - reflexivity.
Defined.

Lemma zero_extreme_no_distances_witness :
  exists st,
    calculate_stock_stats sqrt_approx zero_low_series "T" 3 = Ok (Some st) /\
    week_high st = Some (Fin 120) /\
    week_low st = Some (Fin 0) /\
    vs_52w_high st = None /\ vs_52w_low st = None /\
    exists c, current_price st = Fin c.
Proof.
  eexists. split; [vm_compute; reflexivity|].
  split; [reflexivity|]. split; [reflexivity|].
  eapply (zero_extreme_no_distances sqrt_approx zero_low_series "T" 3).
  - vm_compute. reflexivity.
  - reflexivity.
  - reflexivity.
  - right. simpl. reflexivity.
Defined.

(** C7, as stated, fails on negative prices: with closes -4, -2, -3 the
    current price -3 lies within [week52Low, week52High] = [-4, -2], yet
    the distance from the high is +50 and the distance from the low is
    -25. *)
Lemma distances_negative_prices :
  exists st dh dl,
    calculate_stock_stats sqrt_approx negative_series "T" 3 = Ok (Some st) /\
    current_price st = Fin (-3) /\
    week_high st = Some (Fin (-2)) /\
    week_low st = Some (Fin (-4)) /\
    (-4 <= -3 <= -2)%Q /\
    vs_52w_high st = Some dh /\ feq dh (Fin 50) /\
    vs_52w_low st = Some dl /\ feq dl (Fin (-25)) /\
    ~ fle_q dh 0 /\ ~ fge_q dl 0.
Proof.
  do 3 eexists. split; [vm_compute; reflexivity|].
  cbn [current_price week_high week_low vs_52w_high vs_52w_low].
  split; [reflexivity|]. split; [reflexivity|]. split; [reflexivity|].
  split; [split; discriminate|].
  split; [reflexivity|]. split; [reflexivity|].
  split; [reflexivity|]. split; [reflexivity|].
  split; intro H; apply H; reflexivity.
Qed.

Lemma distances_from_extremes_witness :
  exists st c h l,
    calculate_stock_stats sqrt_approx mixed_series "T" 35 = Ok (Some st) /\
    current_price st = Fin c /\
    week_high st = Some (Fin h) /\
    week_low st = Some (Fin l) /\
    (0 < l)%Q /\ (l <= c <= h)%Q /\
    vs_52w_high st = Some (Fin ((c / h - 1) * 100)%Q) /\
    vs_52w_low st = Some (Fin ((c / l - 1) * 100)%Q) /\
    fle_q (Fin ((c / h - 1) * 100)%Q) 0 /\
    fge_q (Fin ((c / l - 1) * 100)%Q) 0.
Proof.
  exists
    {| current_price := Fin 3;
       one_year_return := Some (Fin (100 # 2));
       volatility :=
         Some (Fin (1455071015245008360965311624100
                    # 956593800000000000000000000));
       week_high := Some (Fin 5);
       week_low := Some (Fin 2);
       vs_52w_high := Some (Fin (-200 # 5));
       vs_52w_low := Some (Fin (100 # 2)) |}.
  match goal with
  | |- exists c h l, ?E = Ok (Some ?st) /\ _ =>
      assert (Hst : E = Ok (Some st)) by (vm_compute; reflexivity);
      destruct (distances_from_extremes sqrt_approx mixed_series "T" 35
                  st _ _ Hst eq_refl eq_refl)
        as [c [h [l [Hc [Hh [Hl [_ [_ [Edh [Edl Hsign]]]]]]]]]]
  end.
  cbn [current_price week_high week_low] in Hc, Hh, Hl.
  injection Hc as <-. injection Hh as <-. injection Hl as <-.
  assert (Hpos : (0 < 2)%Q) by reflexivity.
  assert (Hin : (2 <= 3 <= 5)%Q) by (split; discriminate).
  exists 3%Q, 5%Q, 2%Q.
  split; [exact Hst|].
  cbn [current_price week_high week_low vs_52w_high vs_52w_low].
  split; [reflexivity|]. split; [reflexivity|]. split; [reflexivity|].
  split; [exact Hpos|]. split; [exact Hin|].
  split; [reflexivity|]. split; [reflexivity|].
  rewrite <- Edh, <- Edl. exact (Hsign Hpos Hin).
Defined.

(** C2, as stated, fails when the series starts after the reference date:
    [late_series] has two finite returns, yet for the reference date 5
    the result is the empty dictionary and the volatility is absent. *)
Lemma volatility_absent_with_two_returns :
  period_returns late_series "T" = [Fin (10 # 100); Fin (11 # 110)] /\
  length (period_returns late_series "T") = 2%nat /\
  calculate_stock_stats sqrt_approx late_series "T" 5 = Ok None /\
  ~ (exists res v,
       calculate_stock_stats sqrt_approx late_series "T" 5 = Ok res /\
       stats_get volatility res = Some v /\ fge_q v 0).
Proof.
  split; [reflexivity|]. split; [reflexivity|]. split; [reflexivity|].
  intros [res [v [Hres [Hv _]]]].
  vm_compute in Hres. injection Hres as <-. discriminate.
Qed.

Lemma volatility_absent_or_nonneg_witness :
  exists res v,
    calculate_stock_stats sqrt_approx spec_series "T" spec_reference =
      Ok res /\
    (2 <= length (period_returns spec_series "T"))%nat /\
    stats_get volatility res = Some (Fin v) /\ (0 <= v)%Q.
Proof.
  assert (Hdf : spec_series <> []) by discriminate.
  destruct (volatility_absent_or_nonneg sqrt_approx sqrt_approx_nonneg
              spec_series "T" spec_reference Hdf)
    as [res [Hres [_ [_ [_ Hdef]]]]].
  assert (Hlen : (2 <= length (period_returns spec_series "T"))%nat)
    by (vm_compute; lia).
  destruct Hdef as [v [Hv Hnn]].
  - exists (mkRow "T" (days_from_civil 2024 1 1) 90). split.
    + simpl. auto.
    + vm_compute. discriminate.
  - exact Hlen.
  - vm_compute. repeat constructor.
  - exists res, v. auto.
Defined.

(** With exactly one return the guard [len(returns) > 0] lets the
    computation through, and the sample standard deviation of a single
    value is NaN: the volatility is present and is not a number. *)
Example volatility_of_single_return :
  length (period_returns two_point_series "T") = 1%nat /\
  exists st,
    calculate_stock_stats sqrt_approx two_point_series "T" 2 =
      Ok (Some st) /\
    volatility st = Some NaN.
Proof.
  split; [reflexivity|].
  eexists. split; [vm_compute; reflexivity|reflexivity].
Qed.

(** C3, as stated, fails on the one-year return: the earliest
    observation of the trailing window is 2023-01-01 at 100, so the
    return to 90 is -10, which is not approximately -25. *)
Lemma spec_example_one_year_return :
  spec_reference - one_year = days_from_civil 2023 1 1 /\
  exists st,
    calculate_stock_stats sqrt_approx spec_series "T" spec_reference =
      Ok (Some st) /\
    one_year_return st = Some (Fin ((90 / 100 - 1) * 100)%Q) /\
    ((90 / 100 - 1) * 100 == -10)%Q /\
    ~ approx (Fin ((90 / 100 - 1) * 100)%Q) (-25).
Proof.
  split; [reflexivity|].
  eexists. split; [vm_compute; reflexivity|].
  split; [reflexivity|]. split; [reflexivity|].
  vm_compute. intro H. apply H. reflexivity.
Qed.

(** C1. The trailing-year window should hold exactly the observations of
    the 365 days ending at the reference date, leaving out those dated
    after it. On [lookahead_series] with reference date 150 the function
    keeps the observation of day 200: it reports 50, a price of day 200,
    as 52-week high, where the window ending at day 150 has the high
    10. *)
Theorem trailing_window_keeps_later_observation :
  In (mkRow "T" 200 50) (trailing_window lookahead_series "T" 150) /\
  in_trailing_year 150 (mkRow "T" 200 50) = false /\
  Series_max (map AdjClose
    (filter (in_trailing_year 150)
       (sort_values_Date (ticker_rows lookahead_series "T")))) = Fin 10 /\
  exists st,
    calculate_stock_stats sqrt_approx lookahead_series "T" 150 =
      Ok (Some st) /\
    current_price st = Fin 10 /\
    week_high st = Some (Fin 50) /\
    vs_52w_high st = Some (Fin ((10 / 50 - 1) * 100)%Q).
Proof.
  split; [vm_compute; auto|].
  split; [reflexivity|]. split; [reflexivity|].
  eexists. split; [vm_compute; reflexivity|].
  repeat split.
Qed.

End Concrete.


(* ================================================================== *)
(** ** Filtering, sorting and permuting frames *)

Section FrameAlgebra.

Lemma Permutation_filter {A : Type} (f : A -> bool) (l l' : list A) :
  Permutation l l' -> Permutation (filter f l) (filter f l').
Proof.
  induction 1 as [|x l l' _ IH|x y l|l l' l'' _ IH1 _ IH2]; simpl.
  - constructor.
  - destruct (f x); [now constructor|exact IH].
  - destruct (f x), (f y); try apply Permutation_refl. apply perm_swap.
  - eapply perm_trans; eassumption.
Qed.

Lemma filter_andb {A : Type} (f g : A -> bool) (l : list A) :
  filter (fun x => f x && g x) l = filter f (filter g l).
Proof.
  induction l as [|x l IH]; simpl; [reflexivity|].
  destruct (g x); simpl.
  - rewrite andb_true_r. destruct (f x); now rewrite IH.
  - now rewrite andb_false_r.
Qed.

Lemma filter_comm {A : Type} (f g : A -> bool) (l : list A) :
  filter f (filter g l) = filter g (filter f l).
Proof.
  rewrite <- !filter_andb. apply filter_ext. intro x. apply andb_comm.
Qed.

Lemma filter_all {A : Type} (f : A -> bool) (l : list A) :
  (forall x, In x l -> f x = true) -> filter f l = l.
Proof.
  intro H. apply forallb_filter_id, forallb_forall. exact H.
Qed.

(** Filtering a sorted frame and inserting, in either order. *)
Lemma filter_insert_by_Date (f : Row -> bool) (r : Row) (l : DataFrame) :
  StronglySorted date_le l ->
  filter f (insert_by_Date r l) =
  if f r then insert_by_Date r (filter f l) else filter f l.
Proof.
  induction 1 as [|x tl Hs IH Hx]; simpl.
  - destruct (f r); reflexivity.
  - destruct (Date r <=? Date x) eqn:E.
    + apply Z.leb_le in E. simpl.
      destruct (f r); [|reflexivity].
      symmetry. apply insert_by_Date_head.
      apply Forall_forall. intros a Ha.
      assert (Hin : In a (x :: tl)).
      { change (In a (filter f (x :: tl))) in Ha.
        now apply filter_In in Ha. }
      destruct Hin as [<-|Hin]; [exact E|].
      rewrite Forall_forall in Hx. specialize (Hx a Hin).
      unfold date_le in *. lia.
    + simpl. rewrite IH.
      destruct (f x), (f r); simpl; try rewrite E; reflexivity.
Qed.

(** [sort_values] and boolean-mask selection commute. *)
Lemma filter_sort_values_Date (f : Row -> bool) (l : DataFrame) :
  filter f (sort_values_Date l) = sort_values_Date (filter f l).
Proof.
  induction l as [|x l IH]; simpl; [reflexivity|].
  rewrite filter_insert_by_Date by apply sort_values_Date_sorted.
  rewrite IH. destruct (f x); reflexivity.
Qed.

Lemma NoDup_map_Date_filter (f : Row -> bool) (l : DataFrame) :
  NoDup (map Date l) -> NoDup (map Date (filter f l)).
Proof.
  induction l as [|x l IH]; simpl; intro H; [constructor|].
  inversion H as [|? ? Hnotin Hnd]; subst.
  destruct (f x); [|now apply IH].
  simpl. constructor; [|now apply IH].
  intro Hin. apply Hnotin.
  apply in_map_iff in Hin as [y [Ey Hy]].
  apply filter_In in Hy as [Hy _].
  rewrite <- Ey. now apply in_map.
Qed.

(** With unique dates, permuting a frame does not change its sorted
    form. *)
Lemma sort_values_Date_perm_eq (l l' : DataFrame) :
  NoDup (map Date l) -> Permutation l l' ->
  sort_values_Date l = sort_values_Date l'.
Proof.
  intros Hnd Hp.
  apply sorted_perm_unique.
  - eapply Permutation_NoDup; [|exact Hnd].
    apply Permutation_map, sort_values_Date_perm.
  - eapply perm_trans; [apply Permutation_sym, sort_values_Date_perm|].
    eapply perm_trans; [exact Hp|apply sort_values_Date_perm].
  - apply sort_values_Date_sorted.
  - apply sort_values_Date_sorted.
Qed.

Lemma StronglySorted_date_lt (l : DataFrame) :
  NoDup (map Date l) -> StronglySorted date_le l -> StronglySorted date_lt l.
Proof.
  induction l as [|x l IH]; intros Hnd Hs; [constructor|].
  simpl in Hnd. inversion Hnd as [|? ? Hnotin Hnd']; subst.
  inversion Hs as [|? ? Hs' Hall]; subst.
  constructor; [now apply IH|].
  rewrite Forall_forall in *. intros a Ha.
  specialize (Hall a Ha). unfold date_le, date_lt in *.
  destruct (Z.eq_dec (Date x) (Date a)) as [E|E]; [|lia].
  exfalso. apply Hnotin. rewrite E. now apply in_map.
Qed.

Lemma ticker_rows_Ticker df ticker r :
  In r (ticker_rows df ticker) -> Ticker r = ticker.
Proof.
  unfold ticker_rows. intro H. apply filter_In in H as [_ H].
  now apply String.eqb_eq.
Qed.

End FrameAlgebra.

(* ================================================================== *)
(** ** More on [get_stock_data_for_period] *)

Section WindowLaws.

Import Examples.

(** The result only depends on whether the table has its columns and on
    the sorted rows of the period. *)
Lemma window_congr df ticker s e df' ticker' s' e' :
  (df = [] <-> df' = []) ->
  sort_values_Date (period_rows df ticker s e) =
  sort_values_Date (period_rows df' ticker' s' e') ->
  get_stock_data_for_period df ticker s e =
  get_stock_data_for_period df' ticker' s' e'.
Proof.
  intros Hemp H.
  destruct df as [|r0 df0].
  { rewrite (proj1 Hemp eq_refl). reflexivity. }
  assert (Hdf : r0 :: df0 <> []) by discriminate.
  assert (Hdf' : df' <> []) by (intro E; apply Hemp in E; discriminate).
  revert H. generalize (r0 :: df0) Hdf. clear Hemp Hdf r0 df0.
  intros df Hdf H.
  unfold get_stock_data_for_period.
  rewrite (getitem_nonempty _ _ Hdf), (getitem_nonempty _ _ Hdf').
  rewrite !bind_Ok. cbv zeta.
  fold (period_rows df ticker s e). fold (period_rows df' ticker' s' e').
  rewrite <- (sort_values_Date_length (period_rows df ticker s e)).
  rewrite <- (sort_values_Date_length (period_rows df' ticker' s' e')).
  now rewrite H.
Qed.

Lemma window_inv df ticker s e obs pc :
  get_stock_data_for_period df ticker s e = Ok (Some obs, pc) ->
  period_rows df ticker s e <> [] /\
  obs = sort_values_Date (period_rows df ticker s e) /\
  exists first rest front last,
    obs = first :: rest /\ obs = front ++ [last] /\
    pc = Some (pct_of (Fin (AdjClose last)) (Fin (AdjClose first))).
Proof.
  intro H.
  assert (Hdf : df <> []).
  { intro E. subst df. rewrite window_of_no_table in H. discriminate. }
  destruct (period_rows df ticker s e) as [|r tl] eqn:E.
  - rewrite (window_of_no_rows df ticker s e Hdf E) in H. discriminate.
  - assert (Hne : period_rows df ticker s e <> [])
      by (rewrite E; discriminate).
    destruct (window_of_rows df ticker s e Hne)
      as [first [rest [front [last [Hf [Hl Hres]]]]]].
    rewrite Hres in H. injection H as <- <-.
    rewrite <- E. split; [exact Hne|]. split; [reflexivity|].
    exists first, rest, front, last. auto.
Qed.

(** X1. The one error of [get_stock_data_for_period] is the KeyError of a
    table without records, which has no column.  On a table with at least
    one row it returns, and its two results go together: either both are
    [None], or the frame is a non-empty list of rows and the change is a
    value. *)
Theorem window_error_or_both_or_neither
    (df : DataFrame) (ticker : string) (s e : Z) :
  (df = [] /\
   get_stock_data_for_period df ticker s e = Raise KeyError) \/
  (df <> [] /\
   exists pd pc,
     get_stock_data_for_period df ticker s e = Ok (pd, pc) /\
     (pd = None <-> pc = None) /\
     (forall obs, pd = Some obs -> obs <> [] /\ exists z, pc = Some z)).
Proof.
  destruct df as [|r0 df0]; [left; split; reflexivity|right].
  assert (Hdf : r0 :: df0 <> []) by discriminate.
  split; [exact Hdf|].
  revert Hdf. generalize (r0 :: df0). intros df Hdf.
  destruct (period_rows df ticker s e) as [|r tl] eqn:E.
  - exists None, None.
    split; [now apply window_of_no_rows|].
    split; [tauto|]. intros obs H. discriminate.
  - assert (Hne : period_rows df ticker s e <> [])
      by (rewrite E; discriminate).
    destruct (window_of_rows df ticker s e Hne)
      as [first [rest [front [last [Hf [Hl Hres]]]]]].
    eexists. eexists. split; [exact Hres|].
    split; [split; discriminate|].
    intros obs H. injection H as <-. split.
    + rewrite Hf. discriminate.
    + eexists. reflexivity.
Qed.

(** X2. The order of the rows in the table does not matter: on a ticker
    whose dates are unique, any rearrangement of the table gives the same
    window and the same change. *)
Theorem window_order_independent
    (df df' : DataFrame) (ticker : string) (s e : Z) :
  Permutation df df' ->
  NoDup (map Date (PriceSeries df ticker)) ->
  get_stock_data_for_period df' ticker s e =
  get_stock_data_for_period df ticker s e.
Proof.
  intros Hp Hnd. apply window_congr.
  { split; intro E; subst.
    - apply Permutation_sym in Hp. now apply Permutation_nil in Hp.
    - now apply Permutation_nil in Hp. }
  symmetry. apply sort_values_Date_perm_eq.
  - now apply NoDup_map_Date_filter.
  - unfold period_rows, ticker_rows. now do 2 apply Permutation_filter.
Qed.

Lemma mixed_series_dates_unique :
  NoDup (map Date (PriceSeries mixed_series "T")).
Proof.
  simpl. repeat constructor; simpl; intuition discriminate.
Qed.

Lemma window_order_independent_witness :
  get_stock_data_for_period (rev mixed_series) "T" 15 40 =
  get_stock_data_for_period mixed_series "T" 15 40.
Proof.
  apply (window_order_independent mixed_series (rev mixed_series) "T" 15 40).
  - apply Permutation_rev.
  - exact mixed_series_dates_unique.
Defined.

(** X3. On a ticker whose dates are unique the rows of the window are in
    strictly increasing order of date. *)
Theorem window_strictly_chronological
    (df : DataFrame) (ticker : string) (s e : Z)
    (obs : DataFrame) (pc : option npfloat) :
  NoDup (map Date (PriceSeries df ticker)) ->
  get_stock_data_for_period df ticker s e = Ok (Some obs, pc) ->
  StronglySorted date_lt obs.
Proof.
  intros Hnd H. apply window_inv in H as [_ [-> _]].
  apply StronglySorted_date_lt; [|apply sort_values_Date_sorted].
  eapply Permutation_NoDup.
  - apply Permutation_map, sort_values_Date_perm.
  - now apply NoDup_map_Date_filter.
Qed.

Lemma window_strictly_chronological_witness :
  StronglySorted date_lt
    [mkRow "T" 20 (5 # 1); mkRow "T" 30 (3 # 1); mkRow "T" 40 (4 # 1)].
Proof.
  apply (window_strictly_chronological mixed_series "T" 15 40 _
           (Some (Fin (-100 # 5)))).
  - exact mixed_series_dates_unique.
  - reflexivity.
Defined.

(** X4. Windowing composes: on a ticker whose dates are unique, taking a
    sub-period of a returned window gives what the sub-period gives on
    the whole table. In particular a window fed back with its own period
    is returned unchanged. *)
Theorem window_of_window
    (df : DataFrame) (ticker : string) (s e s' e' : Z)
    (obs : DataFrame) (pc : option npfloat) :
  NoDup (map Date (PriceSeries df ticker)) ->
  get_stock_data_for_period df ticker s e = Ok (Some obs, pc) ->
  s <= s' -> e' <= e ->
  get_stock_data_for_period obs ticker s' e' =
  get_stock_data_for_period df ticker s' e'.
Proof.
  intros Hnd H Hs He. apply window_inv in H as [Hne [-> _]].
  apply window_congr.
  { pose proof (period_rows_table df ticker s e Hne) as Hdf.
    split; intro E; [|contradiction].
    exfalso. apply Hne. apply length_zero_iff_nil.
    now rewrite <- sort_values_Date_length, E. }
  unfold period_rows at 1.
  assert (Ht : ticker_rows
                 (sort_values_Date (period_rows df ticker s e)) ticker =
               sort_values_Date (period_rows df ticker s e)).
  { unfold ticker_rows at 1. apply filter_all. intros r Hr.
    apply sort_values_Date_In, period_rows_In in Hr as [Hr _].
    apply ticker_rows_Ticker in Hr. now apply String.eqb_eq. }
  rewrite Ht, filter_sort_values_Date.
  rewrite (sort_values_Date_id (sort_values_Date _))
    by apply sort_values_Date_sorted.
  f_equal. unfold period_rows.
  rewrite filter_comm. apply filter_all. intros r Hr.
  apply filter_In in Hr as [_ Hr].
  unfold period_mask in *.
  apply andb_true_iff in Hr as [H1 H2].
  apply Z.leb_le in H1. apply Z.leb_le in H2.
  apply andb_true_iff. split; apply Z.leb_le; lia.
Qed.

Lemma window_of_window_witness :
  get_stock_data_for_period
    [mkRow "T" 20 (5 # 1); mkRow "T" 30 (3 # 1); mkRow "T" 40 (4 # 1)]
    "T" 25 40 =
  get_stock_data_for_period mixed_series "T" 25 40.
Proof.
  apply (window_of_window mixed_series "T" 15 40 25 40 _
           (Some (Fin (-100 # 5)))).
  - exact mixed_series_dates_unique.
  - reflexivity.
  - lia.
  - lia.
Defined.

End WindowLaws.

(* ================================================================== *)
(** ** More on [calculate_stock_stats], alone and with the window *)

Section StatsLaws.

Variable np_sqrt : Q -> Q.

(** The result only depends on whether the table has its columns and on
    the sorted rows of the ticker. *)
Lemma stats_congr df ticker df' ticker' d :
  (df = [] <-> df' = []) ->
  sort_values_Date (ticker_rows df ticker) =
  sort_values_Date (ticker_rows df' ticker') ->
  calculate_stock_stats np_sqrt df ticker d =
  calculate_stock_stats np_sqrt df' ticker' d.
Proof.
  intros Hemp H.
  destruct df as [|r0 df0].
  { rewrite (proj1 Hemp eq_refl). reflexivity. }
  assert (Hdf : r0 :: df0 <> []) by discriminate.
  assert (Hdf' : df' <> []) by (intro E; apply Hemp in E; discriminate).
  revert H. generalize (r0 :: df0) Hdf. clear Hemp Hdf r0 df0.
  intros df Hdf H.
  unfold calculate_stock_stats.
  rewrite (getitem_nonempty _ _ Hdf), (getitem_nonempty _ _ Hdf').
  rewrite !bind_Ok. cbv zeta. now rewrite H.
Qed.

(** The rows of a period ending at [d], sorted, are the current rows from
    [s] on; those of the trailing year are the trailing window up to
    [d]. *)
Lemma sorted_period_rows_current df ticker s d :
  sort_values_Date (period_rows df ticker s d) =
  filter (fun r => s <=? Date r) (current_rows df ticker d).
Proof.
  unfold period_rows, current_rows.
  rewrite <- filter_sort_values_Date.
  unfold period_mask. apply filter_andb.
Qed.

Lemma sorted_period_rows_trailing df ticker d :
  sort_values_Date (period_rows df ticker (d - one_year) d) =
  filter (fun r => Date r <=? d) (trailing_window df ticker d).
Proof.
  rewrite sorted_period_rows_current. unfold current_rows, trailing_window.
  apply filter_comm.
Qed.

(** A period ending at the reference date and holding an observation ends
    on the current row. *)
Lemma window_ending_at df ticker s d o :
  In o (PriceSeries df ticker) -> s <= Date o <= d ->
  exists front cur first rest,
    current_rows df ticker d = front ++ [cur] /\
    sort_values_Date (period_rows df ticker s d) = first :: rest /\
    get_stock_data_for_period df ticker s d =
      Ok (Some (sort_values_Date (period_rows df ticker s d)),
          Some (pct_of (Fin (AdjClose cur)) (Fin (AdjClose first)))).
Proof.
  intros Hin Hd.
  assert (Hoc : In o (current_rows df ticker d))
    by (apply current_rows_In; split; [exact Hin|lia]).
  assert (Hne : current_rows df ticker d <> [])
    by (intro E; rewrite E in Hoc; contradiction).
  destruct (nonempty_snoc _ Hne) as [front [cur Hc]].
  assert (Hcur : Date o <= Date cur).
  { pose proof (current_rows_sorted df ticker d) as Hs. rewrite Hc in Hs.
    apply (StronglySorted_last front cur Hs). now rewrite <- Hc. }
  assert (Hsorted : sort_values_Date (period_rows df ticker s d) =
                    filter (fun r => s <=? Date r) front ++ [cur]).
  { rewrite sorted_period_rows_current, Hc, filter_app. simpl.
    replace (s <=? Date cur) with true; [reflexivity|].
    symmetry. apply Z.leb_le. lia. }
  assert (Hp : period_rows df ticker s d <> []).
  { intro E. rewrite E in Hsorted. simpl in Hsorted.
    now destruct (filter (fun r => s <=? Date r) front). }
  destruct (window_of_rows df ticker s d Hp)
    as [first [rest [front' [last [Hf [Hl Hres]]]]]].
  rewrite Hsorted in Hl. apply app_inj_tail in Hl as [_ <-].
  exists front, cur, first, rest. auto.
Qed.

(** X5. On a ticker whose dates are unique, a period that ends at the
    reference date and holds at least one observation ends on the current
    price: the change reported by [get_stock_data_for_period] for it is
    measured up to the [current_price] of [calculate_stock_stats]. *)
Theorem window_ends_on_current_price
    (df : DataFrame) (ticker : string) (s d : Z) :
  NoDup (map Date (PriceSeries df ticker)) ->
  (exists o, In o (PriceSeries df ticker) /\ s <= Date o <= d) ->
  exists st c obs first,
    calculate_stock_stats np_sqrt df ticker d = Ok (Some st) /\
    current_price st = Fin c /\
    hd_error obs = Some first /\
    get_stock_data_for_period df ticker s d =
      Ok (Some obs, Some (pct_of (Fin c) (Fin (AdjClose first)))).
Proof.
  intros _ [o [Hin Hd]].
  destruct (window_ending_at df ticker s d o Hin Hd)
    as [front [cur [first [rest [Hc [Hf Hres]]]]]].
  destruct (stats_of_current np_sqrt df ticker d front cur Hc)
    as [st [Hst [Hp _]]].
  exists st, (AdjClose cur),
    (sort_values_Date (period_rows df ticker s d)), first.
  repeat split; try assumption. now rewrite Hf.
Qed.

(** X6. The one-year return is the change over the 365-day period ending
    at the reference date: on a ticker whose dates are unique, whenever
    that period holds an observation, [calculate_stock_stats] reports as
    [one_year_return] the change that [get_stock_data_for_period]
    computes for [d - 365, d]. *)
Theorem one_year_return_is_window_change
    (df : DataFrame) (ticker : string) (d : Z) :
  NoDup (map Date (PriceSeries df ticker)) ->
  (exists o, In o (PriceSeries df ticker) /\ d - one_year <= Date o <= d) ->
  exists st obs z,
    calculate_stock_stats np_sqrt df ticker d = Ok (Some st) /\
    one_year_return st = Some z /\
    get_stock_data_for_period df ticker (d - one_year) d =
      Ok (Some obs, Some z).
Proof.
  intros _ [o [Hin Hd]].
  destruct (window_ending_at df ticker (d - one_year) d o Hin Hd)
    as [front [cur [first [rest [Hc [Hf Hres]]]]]].
  destruct (stats_of_current np_sqrt df ticker d front cur Hc)
    as [st [Hst [_ [Hret _]]]].
  assert (Hot : In o (trailing_window df ticker d))
    by (apply trailing_window_In; split; [exact Hin|lia]).
  pose proof (trailing_window_sorted df ticker d) as Hs.
  rewrite sorted_period_rows_trailing in Hf.
  destruct (trailing_window df ticker d) as [|r0 w]; [contradiction|].
  assert (Hr0 : Date r0 <= Date o)
    by (now apply (StronglySorted_first r0 w Hs)).
  simpl in Hf.
  replace (Date r0 <=? d) with true in Hf
    by (symmetry; apply Z.leb_le; lia).
  injection Hf as <- _.
  eexists st, _, _. split; [exact Hst|]. split; [exact Hret|exact Hres].
Qed.

(** X7. The whole-history period: on a ticker whose dates are unique,
    when the period starts at or before every observation of the ticker
    and some observation is at or before the reference date, the window
    is the full series up to the reference date, in order of date, and
    the change runs from the earliest close of the series to the current
    price. *)
Theorem window_of_whole_history
    (df : DataFrame) (ticker : string) (s d : Z) :
  NoDup (map Date (PriceSeries df ticker)) ->
  (forall r, In r (PriceSeries df ticker) -> s <= Date r) ->
  (exists o, In o (PriceSeries df ticker) /\ Date o <= d) ->
  exists st c first,
    calculate_stock_stats np_sqrt df ticker d = Ok (Some st) /\
    current_price st = Fin c /\
    In first (PriceSeries df ticker) /\
    (forall r, In r (PriceSeries df ticker) -> Date first <= Date r) /\
    get_stock_data_for_period df ticker s d =
      Ok (Some (current_rows df ticker d),
          Some (pct_of (Fin c) (Fin (AdjClose first)))).
Proof.
  intros _ Hall [o [Hin Hd]].
  assert (Hd' : s <= Date o <= d) by (split; [now apply Hall|exact Hd]).
  destruct (window_ending_at df ticker s d o Hin Hd')
    as [front [cur [first [rest [Hc [Hf Hres]]]]]].
  destruct (stats_of_current np_sqrt df ticker d front cur Hc)
    as [st [Hst [Hp _]]].
  assert (Hrows : sort_values_Date (period_rows df ticker s d) =
                  current_rows df ticker d).
  { rewrite sorted_period_rows_current. apply filter_all.
    intros r Hr. apply current_rows_In in Hr as [Hr _].
    apply Z.leb_le. now apply Hall. }
  rewrite Hrows in Hf, Hres.
  assert (Hfirst : In first (current_rows df ticker d))
    by (rewrite Hf; now left).
  pose proof (current_rows_sorted df ticker d) as Hs. rewrite Hf in Hs.
  exists st, (AdjClose cur), first.
  split; [exact Hst|]. split; [exact Hp|].
  split; [now apply current_rows_In in Hfirst|].
  split; [|exact Hres].
  intros r Hr.
  destruct (Z.le_gt_cases (Date r) d) as [Hle|Hgt].
  - apply (StronglySorted_first first rest Hs). rewrite <- Hf.
    apply current_rows_In. now split.
  - apply current_rows_In in Hfirst as [_ Hfd]. lia.
Qed.

(** X8. The order of the rows in the table does not matter to the
    statistics either: on a ticker whose dates are unique, any
    rearrangement of the table gives the same dictionary. *)
Theorem stats_order_independent
    (df df' : DataFrame) (ticker : string) (d : Z) :
  Permutation df df' ->
  NoDup (map Date (PriceSeries df ticker)) ->
  calculate_stock_stats np_sqrt df' ticker d =
  calculate_stock_stats np_sqrt df ticker d.
Proof.
  intros Hp Hnd. apply stats_congr.
  { split; intro E; subst.
    - apply Permutation_sym in Hp. now apply Permutation_nil in Hp.
    - now apply Permutation_nil in Hp. }
  symmetry. apply sort_values_Date_perm_eq; [exact Hnd|].
  unfold ticker_rows. now apply Permutation_filter.
Qed.

(** X9. The volatility does not depend on the reference date: it is
    computed from the returns of the whole series, observations after the
    reference date included, so two reference dates that both have a
    current price get the same volatility. *)
Theorem volatility_ignores_reference_date
    (df : DataFrame) (ticker : string) (d1 d2 : Z) (st1 st2 : Stats) :
  calculate_stock_stats np_sqrt df ticker d1 = Ok (Some st1) ->
  calculate_stock_stats np_sqrt df ticker d2 = Ok (Some st2) ->
  volatility st1 = volatility st2.
Proof.
  intros H1 H2.
  destruct (stats_inv np_sqrt df ticker d1 st1 H1)
    as [f1 [c1 [_ [_ [_ [Hv1 _]]]]]].
  destruct (stats_inv np_sqrt df ticker d2 st2 H2)
    as [f2 [c2 [_ [_ [_ [Hv2 _]]]]]].
  now rewrite Hv1, Hv2.
Qed.

(** X10. When some observation lies in the 365 days ending at the
    reference date, the one-year return and both extremes are present and
    the current price lies between the 52-week low and the 52-week high;
    if the low is positive, both distances are present, the one from the
    high <= 0 and the one from the low >= 0. *)
Theorem current_price_within_extremes
    (df : DataFrame) (ticker : string) (d : Z) :
  (exists o, In o (PriceSeries df ticker) /\ d - one_year <= Date o <= d) ->
  exists st c h l r,
    calculate_stock_stats np_sqrt df ticker d = Ok (Some st) /\
    current_price st = Fin c /\
    week_high st = Some (Fin h) /\
    week_low st = Some (Fin l) /\
    one_year_return st = Some r /\
    (l <= c <= h)%Q /\
    ((0 < l)%Q ->
     exists dh dl,
       vs_52w_high st = Some dh /\ vs_52w_low st = Some dl /\
       fle_q dh 0 /\ fge_q dl 0).
Proof.
  intros [o [Hin Hd]].
  assert (Hoc : In o (current_rows df ticker d))
    by (apply current_rows_In; split; [exact Hin|lia]).
  assert (Hne : current_rows df ticker d <> [])
    by (intro E; rewrite E in Hoc; contradiction).
  destruct (nonempty_snoc _ Hne) as [front [cur Hc]].
  assert (Hcur : In cur (trailing_window df ticker d)).
  { pose proof (current_rows_sorted df ticker d) as Hs. rewrite Hc in Hs.
    assert (Ho : Date o <= Date cur).
    { apply (StronglySorted_last front cur Hs). now rewrite <- Hc. }
    assert (Hcc : In cur (current_rows df ticker d)).
    { rewrite Hc. apply in_or_app. right. now left. }
    apply current_rows_In in Hcc as [Hcc _].
    apply trailing_window_In. split; [exact Hcc|lia]. }
  destruct (stats_of_current np_sqrt df ticker d front cur Hc)
    as [st [Hst [Hp [Hret [_ [_ [_ Hvs]]]]]]].
  destruct (week_extremes_spec np_sqrt df ticker d st Hst)
    as [[E _]|[h [l [rh [rl [Hh [Hl [_ [_ [_ [_ Hb]]]]]]]]]]].
  { rewrite E in Hcur. contradiction. }
  destruct (trailing_window df ticker d) as [|r0 w] eqn:Hw;
    [contradiction|].
  exists st, (AdjClose cur), h, l,
    (pct_of (Fin (AdjClose cur)) (Fin (AdjClose r0))).
  specialize (Hb cur Hcur).
  repeat split; try assumption; try apply Hb.
  intro Hpos.
  assert (Hl0 : ~ (l == 0)%Q) by lra.
  assert (Hh0 : ~ (h == 0)%Q) by lra.
  rewrite Hh, Hl in Hvs.
  apply truthy_Fin in Hl0 as Htl. apply truthy_Fin in Hh0 as Hth.
  rewrite Hth, Htl in Hvs. simpl andb in Hvs. cbv iota in Hvs.
  injection Hvs as -> ->.
  do 2 eexists. split; [reflexivity|]. split; [reflexivity|].
  rewrite (pct_of_Fin _ h Hh0), (pct_of_Fin _ l Hl0). simpl.
  now apply pct_sign_between.
Qed.

(** X11. Which fields come together: the one-year return, the 52-week
    high and the 52-week low are all present or all absent, and absent
    exactly when every observation is older than 365 days before the
    reference date; the two distances are both present or both absent,
    and present exactly when both extremes are non-zero numbers. *)
Theorem stats_fields_present_together
    (df : DataFrame) (ticker : string) (d : Z) (st : Stats) :
  calculate_stock_stats np_sqrt df ticker d = Ok (Some st) ->
  (week_high st = None <->
   forall r, In r (PriceSeries df ticker) -> Date r < d - one_year) /\
  (one_year_return st = None <-> week_high st = None) /\
  (week_low st = None <-> week_high st = None) /\
  (vs_52w_low st = None <-> vs_52w_high st = None) /\
  (vs_52w_high st <> None <->
   exists h l,
     week_high st = Some (Fin h) /\ week_low st = Some (Fin l) /\
     ~ (h == 0)%Q /\ ~ (l == 0)%Q).
Proof.
  intro Hst.
  destruct (stats_inv np_sqrt df ticker d st Hst)
    as [front [cur [_ [_ [Hret [_ [Hhigh [Hlow Hvs]]]]]]]].
  destruct (trailing_window df ticker d) as [|r0 w] eqn:Hw.
  - rewrite Hhigh in Hvs. cbv iota in Hvs. injection Hvs as Hvh Hvl.
    rewrite Hret, Hhigh, Hlow, Hvh, Hvl.
    split.
    { split; [|reflexivity]. intros _ r Hr.
      destruct (Z.lt_ge_cases (Date r) (d - one_year)) as [?|Hge];
        [assumption|].
      assert (Hin : In r (trailing_window df ticker d))
        by (apply trailing_window_In; split; [exact Hr|lia]).
      rewrite Hw in Hin. contradiction. }
    repeat split; try reflexivity; try congruence.
    intros [h [l [E _]]]. discriminate.
  - rewrite Hhigh, Hlow in Hvs.
    set (h := fold_left Qmax (map AdjClose w) (AdjClose r0)) in *.
    set (l := fold_left Qmin (map AdjClose w) (AdjClose r0)) in *.
    change (Series_max (map AdjClose (r0 :: w))) with (Fin h) in *.
    change (Series_min (map AdjClose (r0 :: w))) with (Fin l) in *.
    rewrite Hret, Hhigh, Hlow.
    split.
    { split; [discriminate|]. intro Hold. exfalso.
      assert (Hin : In r0 (trailing_window df ticker d))
        by (rewrite Hw; now left).
      apply trailing_window_In in Hin as [Hin Hd].
      specialize (Hold r0 Hin). lia. }
    split; [split; discriminate|]. split; [split; discriminate|].
    destruct (truthy (Fin h) && truthy (Fin l)) eqn:Ht;
      injection Hvs as Hvh Hvl; rewrite Hvh, Hvl.
    + apply andb_true_iff in Ht as [Hth Htl].
      apply truthy_Fin in Hth. apply truthy_Fin in Htl.
      split; [split; discriminate|].
      split; [|discriminate]. intros _. now exists h, l.
    + split; [tauto|]. split; [congruence|].
      intros [h' [l' [Eh [El [Hh0 Hl0]]]]].
      injection Eh as <-. injection El as <-.
      apply truthy_Fin in Hh0. apply truthy_Fin in Hl0.
      rewrite Hh0, Hl0 in Ht. discriminate.
Qed.

(** X12. What the extremes range over: the 52-week high is the largest
    and the 52-week low the smallest adjusted close among the observations
    dated on or after the reference date minus 365 days, whatever their
    date beyond that. *)
Theorem week_extremes_range
    (df : DataFrame) (ticker : string) (d : Z) (st : Stats)
    (h l : npfloat) :
  calculate_stock_stats np_sqrt df ticker d = Ok (Some st) ->
  week_high st = Some h ->
  week_low st = Some l ->
  exists rh rl,
    h = Fin (AdjClose rh) /\ l = Fin (AdjClose rl) /\
    In rh (PriceSeries df ticker) /\ d - one_year <= Date rh /\
    In rl (PriceSeries df ticker) /\ d - one_year <= Date rl /\
    forall r, In r (PriceSeries df ticker) -> d - one_year <= Date r ->
              (AdjClose rl <= AdjClose r <= AdjClose rh)%Q.
Proof.
  intros Hst Hh Hl.
  destruct (week_extremes_spec np_sqrt df ticker d st Hst)
    as [[_ [E _]]|[qh [ql [rh [rl [Eh [El [Hrh [<- [Hrl [<- Hb]]]]]]]]]]].
  { congruence. }
  rewrite Eh in Hh. rewrite El in Hl.
  injection Hh as <-. injection Hl as <-.
  apply trailing_window_In in Hrh as [Hrh Hdh].
  apply trailing_window_In in Hrl as [Hrl Hdl].
  exists rh, rl. repeat split; try assumption.
  - apply Hb. apply trailing_window_In. now split.
  - apply Hb. apply trailing_window_In. now split.
Qed.

(** X13. A ticker that has no row in a table of other tickers is not an
    error: on a table with at least one row, the window is
    [(None, None)] and the statistics are the empty dictionary. *)
Theorem unknown_ticker_empty_results
    (df : DataFrame) (ticker : string) (s e d : Z) :
  df <> [] ->
  (forall r, In r df -> Ticker r <> ticker) ->
  get_stock_data_for_period df ticker s e = Ok (None, None) /\
  calculate_stock_stats np_sqrt df ticker d = Ok None.
Proof.
  intros Hdf Hnone.
  assert (E : ticker_rows df ticker = []).
  { destruct (ticker_rows df ticker) as [|r tl] eqn:E; [reflexivity|].
    assert (Hin : In r (ticker_rows df ticker)) by (rewrite E; now left).
    pose proof (ticker_rows_Ticker df ticker r Hin) as Ht.
    unfold ticker_rows in Hin. apply filter_In in Hin as [Hin _].
    exfalso. exact (Hnone r Hin Ht). }
  split.
  - apply window_of_no_rows; [exact Hdf|].
    unfold period_rows. now rewrite E.
  - apply stats_of_no_current; [exact Hdf|].
    unfold current_rows. now rewrite E.
Qed.

End StatsLaws.

(* ================================================================== *)
(** ** The dashboard's use of the analytics *)

Section DashboardLaws.

Import Examples.

(** X14. Whatever buttons are pressed, the label and the number of days
    chosen by the script are one entry of its [periods] table, so they
    never disagree; the "Max" button wins over the others, and with no
    button pressed the choice is "Max", the whole history. *)
Theorem select_period_in_table (day1 day15 month1 year5 max : bool) :
  exists label,
    snd (select_period day1 day15 month1 year5 max) = Some label /\
    dict_get periods label =
      Some (fst (select_period day1 day15 month1 year5 max)) /\
    (max = true -> label = "Max"%string) /\
    (day1 || day15 || month1 || year5 || max = false ->
     label = "Max"%string) /\
    (fst (select_period day1 day15 month1 year5 max) = None <->
     label = "Max"%string).
Proof.
  destruct day1, day15, month1, year5, max; vm_compute;
    eexists; (split; [reflexivity|]); (split; [reflexivity|]);
    repeat split; intros; try discriminate; reflexivity.
Qed.

(** X15. The colour of the displayed change: for a window whose first
    adjusted close is positive, the change is shown in green exactly when
    the last close of the window is at least the first, in red
    otherwise. *)
Theorem change_color_green_iff_rise
    (df : DataFrame) (ticker : string) (s e : Z)
    (obs front : DataFrame) (z : npfloat) (first last : Row) :
  get_stock_data_for_period df ticker s e = Ok (Some obs, Some z) ->
  hd_error obs = Some first ->
  obs = front ++ [last] ->
  (0 < AdjClose first)%Q ->
  (change_color z = "green"%string <->
   (AdjClose first <= AdjClose last)%Q) /\
  (change_color z = "red"%string <->
   (AdjClose last < AdjClose first)%Q).
Proof.
  intros H Hhd Hlast Hpos.
  apply window_inv in H
    as [_ [_ [first' [rest [front' [last' [Hf [Hl Hz]]]]]]]].
  rewrite Hf in Hhd. injection Hhd as ->.
  rewrite Hlast in Hl. apply app_inj_tail in Hl as [_ <-].
  injection Hz as ->.
  assert (Hnz : ~ (AdjClose first == 0)%Q) by lra.
  rewrite (pct_of_Fin _ _ Hnz). unfold change_color, ge_zero.
  set (f := AdjClose first) in *. set (l := AdjClose last) in *.
  assert (Hrise : (0 <= (l / f - 1) * 100)%Q <-> (f <= l)%Q).
  { assert (El : (l == (l / f) * f)%Q) by (field; exact Hnz).
    split; intro Hle.
    - assert (H1 : (1 <= l / f)%Q) by lra.
      rewrite El. rewrite <- (Qmult_1_l f) at 1.
      apply Qmult_le_r; assumption.
    - assert (H1 : (1 <= l / f)%Q).
      { apply Qle_shift_div_l; [exact Hpos|lra]. }
      lra. }
  destruct (Qle_bool 0 ((l / f - 1) * 100)) eqn:E.
  - apply Qle_bool_iff in E. apply Hrise in E.
    split; split; intro H; try reflexivity; try discriminate;
      try exact E.
    exfalso. lra.
  - assert (Hn : ~ (f <= l)%Q).
    { intro Hle. apply Hrise in Hle. apply Qle_bool_iff in Hle.
      congruence. }
    split; split; intro H; try reflexivity; try discriminate;
      try contradiction.
    apply Qnot_le_lt. exact Hn.
Qed.

Lemma change_color_green_iff_rise_witness :
  change_color (Fin (-100 # 5)) = "red"%string <-> (4 # 1 < 5 # 1)%Q.
Proof.
  apply (change_color_green_iff_rise mixed_series "T" 15 40
           [mkRow "T" 20 (5 # 1); mkRow "T" 30 (3 # 1); mkRow "T" 40 (4 # 1)]
           [mkRow "T" 20 (5 # 1); mkRow "T" 30 (3 # 1)]
           (Fin (-100 # 5)) (mkRow "T" 20 (5 # 1)) (mkRow "T" 40 (4 # 1))).
  - reflexivity.
  - reflexivity.
  - reflexivity.
  - reflexivity.
Defined.

Lemma window_ends_on_current_price_witness :
  exists st c obs first,
    calculate_stock_stats sqrt_approx mixed_series "T" 35 = Ok (Some st) /\
    current_price st = Fin c /\
    hd_error obs = Some first /\
    get_stock_data_for_period mixed_series "T" 15 35 =
      Ok (Some obs, Some (pct_of (Fin c) (Fin (AdjClose first)))).
Proof.
  apply (window_ends_on_current_price sqrt_approx mixed_series "T" 15 35).
  - exact mixed_series_dates_unique.
  - exists (mkRow "T" 30 (3 # 1)). split.
    + simpl. now left.
    + simpl. lia.
Defined.

Lemma one_year_return_is_window_change_witness :
  exists st obs z,
    calculate_stock_stats sqrt_approx spec_series "T" spec_reference =
      Ok (Some st) /\
    one_year_return st = Some z /\
    get_stock_data_for_period spec_series "T"
      (spec_reference - one_year) spec_reference = Ok (Some obs, Some z).
Proof.
  apply (one_year_return_is_window_change sqrt_approx spec_series "T"
           spec_reference).
  - vm_compute. repeat constructor; simpl; intuition discriminate.
  - exists (mkRow "T" (days_from_civil 2023 6 1) 120). split.
    + simpl. auto.
    + vm_compute. split; discriminate.
Defined.

Lemma window_of_whole_history_witness :
  exists st c first,
    calculate_stock_stats sqrt_approx mixed_series "T" 35 = Ok (Some st) /\
    current_price st = Fin c /\
    In first (PriceSeries mixed_series "T") /\
    (forall r, In r (PriceSeries mixed_series "T") ->
               Date first <= Date r) /\
    get_stock_data_for_period mixed_series "T" 10 35 =
      Ok (Some (current_rows mixed_series "T" 35),
          Some (pct_of (Fin c) (Fin (AdjClose first)))).
Proof.
  apply (window_of_whole_history sqrt_approx mixed_series "T" 10 35).
  - exact mixed_series_dates_unique.
  - simpl. intros r [<-|[<-|[<-|[<-|[]]]]]; simpl; lia.
  - exists (mkRow "T" 30 (3 # 1)). split.
    + simpl. now left.
    + simpl. lia.
Defined.

Lemma stats_order_independent_witness :
  calculate_stock_stats sqrt_approx (rev mixed_series) "T" 35 =
  calculate_stock_stats sqrt_approx mixed_series "T" 35.
Proof.
  apply (stats_order_independent sqrt_approx mixed_series
           (rev mixed_series) "T" 35).
  - apply Permutation_rev.
  - exact mixed_series_dates_unique.
Defined.

Lemma volatility_ignores_reference_date_witness :
  exists st1 st2,
    calculate_stock_stats sqrt_approx mixed_series "T" 15 = Ok (Some st1) /\
    calculate_stock_stats sqrt_approx mixed_series "T" 45 = Ok (Some st2) /\
    current_price st1 <> current_price st2 /\
    volatility st1 = volatility st2.
Proof.
  do 2 eexists.
  split; [vm_compute; reflexivity|]. split; [vm_compute; reflexivity|].
  split; [discriminate|].
  eapply (volatility_ignores_reference_date sqrt_approx mixed_series "T"
            15 45); vm_compute; reflexivity.
Defined.

Lemma current_price_within_extremes_witness :
  exists st c h l r,
    calculate_stock_stats sqrt_approx mixed_series "T" 35 = Ok (Some st) /\
    current_price st = Fin c /\
    week_high st = Some (Fin h) /\
    week_low st = Some (Fin l) /\
    one_year_return st = Some r /\
    (l <= c <= h)%Q /\
    ((0 < l)%Q ->
     exists dh dl,
       vs_52w_high st = Some dh /\ vs_52w_low st = Some dl /\
       fle_q dh 0 /\ fge_q dl 0).
Proof.
  apply (current_price_within_extremes sqrt_approx mixed_series "T" 35).
  exists (mkRow "T" 30 (3 # 1)). split.
  - simpl. now left.
  - simpl. lia.
Defined.

Lemma stats_fields_present_together_witness :
  exists st,
    calculate_stock_stats sqrt_approx zero_low_series "T" 3 = Ok (Some st) /\
    (week_low st = None <-> week_high st = None) /\
    (vs_52w_low st = None <-> vs_52w_high st = None).
Proof.
  eexists. split; [vm_compute; reflexivity|].
  match goal with
  | |- (week_low ?st = _ <-> _) /\ _ =>
      destruct (stats_fields_present_together sqrt_approx zero_low_series
                  "T" 3 st) as [_ [_ [Hlow [Hvs _]]]];
      [vm_compute; reflexivity|exact (conj Hlow Hvs)]
  end.
Defined.

Lemma week_extremes_range_witness :
  exists st rh rl,
    calculate_stock_stats sqrt_approx lookahead_series "T" 150 =
      Ok (Some st) /\
    week_high st = Some (Fin (AdjClose rh)) /\
    week_low st = Some (Fin (AdjClose rl)) /\
    In rh (PriceSeries lookahead_series "T") /\
    In rl (PriceSeries lookahead_series "T") /\
    forall r, In r (PriceSeries lookahead_series "T") ->
              150 - one_year <= Date r ->
              (AdjClose rl <= AdjClose r <= AdjClose rh)%Q.
Proof.
  eexists.
  match goal with
  | |- exists rh rl, ?E = Ok (Some ?st) /\ _ =>
      assert (Hst : E = Ok (Some st)) by (vm_compute; reflexivity);
      destruct (week_extremes_range sqrt_approx lookahead_series "T" 150
                  st _ _ Hst eq_refl eq_refl)
        as [rh [rl [Eh [El [Hrh [_ [Hrl [_ Hb]]]]]]]]
  end.
  exists rh, rl. split; [exact Hst|].
  cbn [week_high week_low]. rewrite Eh, El. auto.
Defined.

Lemma unknown_ticker_empty_results_witness :
  get_stock_data_for_period mixed_series "Z" 15 40 = Ok (None, None) /\
  calculate_stock_stats sqrt_approx mixed_series "Z" 35 = Ok None.
Proof.
  apply (unknown_ticker_empty_results sqrt_approx mixed_series "Z" 15 40 35).
  - discriminate.
  - simpl. intros r [<-|[<-|[<-|[<-|[<-|[]]]]]]; simpl; discriminate.
Defined.

End DashboardLaws.

(* ================================================================== *)
(** ** A flat series *)

Section FlatSeries.

Import Examples.

Variable np_sqrt : Q -> Q.
Hypothesis np_sqrt_zero : forall x : Q, (x == 0)%Q -> (np_sqrt x == 0)%Q.

Lemma pct_change_from_flat (p : Q) (ps : list Q) :
  ~ (p == 0)%Q ->
  Forall (eq p) ps ->
  pct_change_from p ps = repeat (Fin (p / p + - (1))%Q) (length ps).
Proof.
  intros Hp. induction 1 as [|q ps Hq _ IH]; simpl; [reflexivity|].
  subst q. rewrite IH. f_equal.
  destruct (Qsign p) eqn:E; try reflexivity.
  apply Qsign_Eq in E. contradiction.
Qed.

Lemma finite_values_repeat (q : Q) (n : nat) :
  dropna (repeat (Fin q) n) = repeat (Fin q) n /\
  finite_values (repeat (Fin q) n) = Some (repeat q n).
Proof.
  induction n as [|n [IHd IHf]]; simpl; [auto|].
  unfold dropna in *. simpl. rewrite IHd, IHf. auto.
Qed.

Lemma Qsum_zero (qs : list Q) :
  Forall (fun q => q == 0)%Q qs -> (Qsum qs == 0)%Q.
Proof.
  induction 1 as [|q qs Hq _ IH]; simpl; [reflexivity|].
  change (q + Qsum qs == 0)%Q. rewrite Hq, IH. reflexivity.
Qed.

Lemma sample_var_flat (q : Q) (n : nat) :
  (q == 0)%Q -> (sample_var (repeat q n) == 0)%Q.
Proof.
  intro Hq. unfold sample_var.
  assert (Hmean : (mean (repeat q n) == 0)%Q).
  { unfold mean.
    assert (Hs : (Qsum (repeat q n) == 0)%Q).
    { apply Qsum_zero, Forall_forall. intros x Hx.
      apply repeat_spec in Hx. now subst. }
    rewrite Hs. unfold Qdiv. apply Qmult_0_l. }
  assert (Hs : (sum_sq_dev (repeat q n) == 0)%Q).
  { unfold sum_sq_dev. apply Qsum_zero, Forall_forall. intros y Hy.
    apply in_map_iff in Hy as [x [<- Hx]].
    apply repeat_spec in Hx. subst x. rewrite Hmean, Hq. reflexivity. }
  rewrite Hs. unfold Qdiv. apply Qmult_0_l.
Qed.

(** X16. A flat series has no volatility: when the ticker has at least
    three observations, all at the same non-zero adjusted close, and one of
    them is at or before the reference date, the annualized volatility is
    the number 0 (for a square root that maps 0 to 0). *)
Theorem flat_series_zero_volatility
    (df : DataFrame) (ticker : string) (d : Z) (p : Q) :
  ~ (p == 0)%Q ->
  (forall r, In r (PriceSeries df ticker) -> AdjClose r = p) ->
  (3 <= length (PriceSeries df ticker))%nat ->
  (exists o, In o (PriceSeries df ticker) /\ Date o <= d) ->
  exists st v,
    calculate_stock_stats np_sqrt df ticker d = Ok (Some st) /\
    volatility st = Some (Fin v) /\ (v == 0)%Q.
Proof.
  intros Hp Hflat Hlen [o [Hin Hd]].
  assert (Hoc : In o (current_rows df ticker d))
    by (apply current_rows_In; now split).
  assert (Hne : current_rows df ticker d <> [])
    by (intro E; rewrite E in Hoc; contradiction).
  destruct (nonempty_snoc _ Hne) as [front [cur Hc]].
  destruct (stats_of_current np_sqrt df ticker d front cur Hc)
    as [st [Hst [_ [_ [Hvol _]]]]].
  assert (Hret : exists m,
            period_returns df ticker = repeat (Fin (p / p + - (1))%Q) (S (S m))).
  { unfold period_returns, PriceSeries in *.
    rewrite <- (sort_values_Date_length (ticker_rows df ticker)) in Hlen.
    rewrite <- (length_map AdjClose) in Hlen.
    assert (Hall : Forall (eq p)
              (map AdjClose (sort_values_Date (ticker_rows df ticker)))).
    { apply Forall_forall. intros q Hq.
      apply in_map_iff in Hq as [r [<- Hr]].
      symmetry. apply Hflat. now apply sort_values_Date_In. }
    destruct (map AdjClose (sort_values_Date (ticker_rows df ticker)))
      as [|q qs]; [simpl in Hlen; lia|].
    inversion Hall as [|? ? Hq Hqs]; subst q.
    simpl pct_change. simpl in Hlen.
    rewrite (pct_change_from_flat p qs Hp Hqs).
    destruct (length qs) as [|[|m]]; try lia.
    exists m.
    change (dropna (NaN :: ?l)) with (dropna l).
    apply finite_values_repeat. }
  destruct Hret as [m Hret].
  rewrite Hret in Hvol. rewrite repeat_length in Hvol.
  change (0 <? S (S m))%nat with true in Hvol. cbv iota in Hvol.
  unfold Series_std in Hvol.
  destruct (finite_values_repeat (p / p + - (1))%Q (S (S m))) as [Ed Ef].
  rewrite Ed, Ef, repeat_length in Hvol.
  change (S (S m) <=? 1)%nat with false in Hvol. cbv iota in Hvol.
  simpl fmul in Hvol.
  assert (Hx : (np_sqrt (sample_var (repeat (p / p + - (1))%Q (S (S m))))
                == 0)%Q).
  { apply np_sqrt_zero, sample_var_flat. field. exact Hp. }
  eexists st, _. split; [exact Hst|]. split; [exact Hvol|].
  change (?a :: ?a :: repeat ?a m) with (repeat a (S (S m))).
  rewrite Hx. ring.
Qed.

End FlatSeries.

Lemma sqrt_approx_zero (x : Q) : (x == 0)%Q -> (sqrt_approx x == 0)%Q.
Proof.
  unfold sqrt_approx, Qeq. simpl. intro H.
  rewrite Z.mul_1_r in H. rewrite H. reflexivity.
Qed.

Lemma flat_series_zero_volatility_witness :
  exists st v,
    calculate_stock_stats sqrt_approx Examples.flat_series "T" 3 =
      Ok (Some st) /\
    volatility st = Some (Fin v) /\ (v == 0)%Q.
Proof.
  apply (flat_series_zero_volatility sqrt_approx sqrt_approx_zero
           Examples.flat_series "T" 3 (7 # 1)).
  - discriminate.
  - simpl. intros r [<-|[<-|[<-|[<-|[]]]]]; reflexivity.
  - simpl. lia.
  - exists (mkRow "T" 1 (7 # 1)). split; [simpl; now left|simpl; lia].
Defined.

